(** * IncognitoChat: the room relay of the WebSocket server

    A shallow embedding of the server half of [src/App.tsx]: the two
    tables [users] and [rooms], the room-id generator, the user-count
    broadcast and the two listeners registered on every connection
    (["message"] and ["close"]), followed by the properties of the relay.

    Conventions of the embedding.
    - A [WebSocket] is an opaque handle; its [readyState] belongs to the
      environment and is read through [isOpen].
    - [JSON.parse] is a built-in: a listener receives its result, [None]
      standing for the [SyntaxError] of an unparseable frame.
    - [Math.random] is read from a finite list of draws supplied by the
      environment; the do-while loop of [createUniqueRoomId] consumes them
      and yields [None] when all of them collide.
    - [socket.send (JSON.stringify v)] is recorded as a pair of the
      receiving socket and the envelope [v], in the order of the calls.
    - A [Set<WebSocket>] is the list of its elements in insertion order,
      which is the order [forEach] visits them in. *)

From Stdlib Require Import QArith Qround.
From stdpp Require Import gmap strings list fin_maps pretty.

(** ** JavaScript values produced by JSON.parse *)

#[warnings="-register-all"]
Inductive json : Type :=
  | JNull
  | JBool (b : bool)
  | JNum (q : Q)
  | JStr (s : string)
  | JArr (items : list json)
  | JObj (fields : list (string * json)).

(** A JavaScript value as the handlers see it: [None] is [undefined]. *)
Abbreviation jsval := (option json).

(** The outcome of evaluating an expression that may raise a TypeError. *)
Inductive completion (A : Type) : Type :=
  | Normal (a : A)
  | TypeError.
Arguments Normal {A} a.
Arguments TypeError {A}.

Fixpoint assoc (k : string) (fields : list (string * json)) : jsval :=
  match fields with
  | [] => None
  | (k', v) :: rest => if String.eqb k k' then Some v else assoc k rest
  end.

(** [v.k] for the keys the server reads ([type], [payload], [room], [id],
    [text], [typing]); none of them is defined on the prototypes of
    numbers, strings, booleans or arrays. Reading a property of
    [undefined] or [null] raises. *)
Definition getProp (v : jsval) (k : string) : completion jsval :=
  match v with
  | None | Some JNull => TypeError
  | Some (JObj fields) => Normal (assoc k fields)
  | Some _ => Normal None
  end.

(** ToBoolean. *)
Definition truthy (v : jsval) : bool :=
  match v with
  | None | Some JNull => false
  | Some (JBool b) => b
  | Some (JNum q) => negb (Qeq_bool q 0)
  | Some (JStr s) => negb (String.eqb s "")
  | Some (JArr _) | Some (JObj _) => true
  end.

(** [v === "s"] against a string literal. *)
Definition strictEq (v : jsval) (s : string) : bool :=
  match v with
  | Some (JStr t) => String.eqb t s
  | _ => false
  end.

(** [v || {}]. *)
Definition orEmpty (v : jsval) : jsval :=
  if truthy v then v else Some (JObj []).

(** ** Data structures *)

Definition WebSocket : Type := nat.

Record User : Type := mkUser { socket : WebSocket; room : string }.

Record Server : Type := mkServer {
  users : gmap WebSocket User;
  rooms : gmap string (list WebSocket);
}.

Definition MAX_USERS_PER_ROOM : nat := 2.

Definition initial : Server := {| users := ∅; rooms := ∅ |}.

(** Operations of [Set<WebSocket>]. *)
Definition setAdd (c : WebSocket) (s : list WebSocket) : list WebSocket :=
  if decide (c ∈ s) then s else s ++ [c].

Definition setDelete (c : WebSocket) (s : list WebSocket) : list WebSocket :=
  filter (λ x, x ≠ c) s.

(** [rooms.has(k)] and [rooms.get(k)] for a key of type [any]: the keys
    of the map are strings, so only a string can be found. *)
Definition roomsGet (rs : gmap string (list WebSocket)) (k : jsval)
  : option (list WebSocket) :=
  match k with
  | Some (JStr r) => rs !! r
  | _ => None
  end.

Definition roomsHas (rs : gmap string (list WebSocket)) (k : jsval) : bool :=
  bool_decide (is_Some (roomsGet rs k)).

(** ** Outbound envelopes *)

Inductive envelope : Type :=
  | EError (message : string)
  | ERoomCreated (room : string)
  | EJoined (room : string)
  | EUserCount (count max : nat)
  | ETyping (typing : jsval)
  | EMessage (id text : jsval)
  | EDelivered (id : jsval)
  | ESeen (id : jsval).

Abbreviation sent := (list (WebSocket * envelope)).

(** ** Environment *)

Record Env : Type := mkEnv {
  isOpen : WebSocket → bool;   (* readyState === WebSocket.OPEN *)
  random : list Q;             (* successive results of Math.random() *)
}.

(** ** Room id generator *)

(** A draw is the exact value of the double [Math.random()] returned, and
    the product and the sum are computed exactly: the rounding of the two
    double operations is not modelled, so that for some draws the code's
    fourth digit is one more than the one computed here. Nothing below
    depends on which identifier a draw yields. *)
Definition generateRoomId (u : Q) : string :=
  pretty (Qfloor (1000 + u * 9000)).

Fixpoint createUniqueRoomId (rs : gmap string (list WebSocket)) (draws : list Q)
  : option string :=
  match draws with
  | [] => None
  | u :: rest =>
      let id := generateRoomId u in
      if decide (is_Some (rs !! id)) then createUniqueRoomId rs rest else Some id
  end.

(** ** User count broadcast *)

Definition broadcastUserCount (e : Env) (st : Server) (roomId : string) : sent :=
  match rooms st !! roomId with
  | None => []
  | Some roomSockets =>
      let countPayload := EUserCount (length roomSockets) MAX_USERS_PER_ROOM in
      map (λ client, (client, countPayload))
          (filter (λ client, isOpen e client = true) roomSockets)
  end.

(** ** Connection listeners *)

Inductive outcome : Type :=
  | Returned (st : Server) (out : sent)
  | Threw (st : Server) (out : sent)   (* a TypeError leaves the listener *)
  | Spins.                             (* the id loop never exits *)

Definition try_ {A} (c : completion A) (st : Server) (k : A → outcome) : outcome :=
  match c with
  | Normal a => k a
  | TypeError => Threw st []
  end.

Notation "'let!' x := c 'in' st ; k" := (try_ c st (λ x, k))
  (at level 10, x name, c at level 100, st at level 0, k at level 200).

Definition onMessage (e : Env) (st : Server) (sock : WebSocket) (data : jsval)
  : outcome :=
  match data with
  | None => Returned st [(sock, EError "Invalid JSON format")]
  | Some _ =>
    let message := data in
    let! type := getProp message "type" in st;
    if strictEq type "create-room" then
      if decide (is_Some (users st !! sock)) then Returned st []
      else
        match createUniqueRoomId (rooms st) (random e) with
        | None => Spins
        | Some roomId =>
            let st' := {| users := <[sock := mkUser sock roomId]> (users st);
                          rooms := <[roomId := [sock]]> (rooms st) |} in
            Returned st' ((sock, ERoomCreated roomId)
                            :: broadcastUserCount e st' roomId)
        end
    else if strictEq type "join-room" then
      let! payload := getProp message "payload" in st;
      let! room := getProp (orEmpty payload) "room" in st;
      if negb (truthy room) || negb (roomsHas (rooms st) room) then
        Returned st [(sock, EError "Room does not exist")]
      else
        match room, roomsGet (rooms st) room with
        | Some (JStr r), Some roomSockets =>
            if MAX_USERS_PER_ROOM <=? length roomSockets then
              Returned st [(sock, EError "Room is full")]
            else
              let st' := {| users := <[sock := mkUser sock r]> (users st);
                            rooms := <[r := setAdd sock roomSockets]> (rooms st) |} in
              Returned st' ((sock, EJoined r) :: broadcastUserCount e st' r)
        | _, _ => Threw st []
        end
    else
      match users st !! sock with
      | None => Returned st []
      | Some user =>
        match rooms st !! room user with
        | None => Returned st []
        | Some roomSockets =>
          let others :=
            filter (λ client, client ≠ sock ∧ isOpen e client = true) roomSockets in
          if strictEq type "typing" then
            let! payload := getProp message "payload" in st;
            let! typing := getProp payload "typing" in st;
            Returned st (map (λ client, (client, ETyping typing)) others)
          else if strictEq type "message" then
            let! payload := getProp message "payload" in st;
            let! id := getProp (orEmpty payload) "id" in st;
            let! text := getProp (orEmpty payload) "text" in st;
            if negb (truthy id) || negb (truthy text) then Returned st []
            else
              Returned st (map (λ client, (client, EMessage id text)) others
                             ++ [(sock, EDelivered id)])
          else if strictEq type "seen" then
            let! payload := getProp message "payload" in st;
            let! id := getProp (orEmpty payload) "id" in st;
            if negb (truthy id) then Returned st []
            else
              Returned st (map (λ client, (client, ESeen id))
                             (filter (λ client, isOpen e client = true) roomSockets))
          else Returned st []
        end
      end
  end.

Definition onClose (e : Env) (st : Server) (sock : WebSocket) : Server * sent :=
  match users st !! sock with
  | None => (st, [])
  | Some user =>
    match rooms st !! room user with
    | Some roomSockets =>
        let roomSockets' := setDelete sock roomSockets in
        let st1 := {| users := users st;
                      rooms := <[room user := roomSockets']> (rooms st) |} in
        if length roomSockets' =? 0 then
          ({| users := delete sock (users st1);
              rooms := delete (room user) (rooms st1) |}, [])
        else
          ({| users := delete sock (users st1); rooms := rooms st1 |},
           broadcastUserCount e st1 (room user))
    | None =>
        ({| users := delete sock (users st); rooms := rooms st |},
         broadcastUserCount e st (room user))
    end
  end.

(** ** Runs of the server *)

Inductive Event : Type :=
  | Message (sock : WebSocket) (data : jsval)
  | Close (sock : WebSocket).

Definition step (e : Env) (st : Server) (ev : Event) : outcome :=
  match ev with
  | Message sock data => onMessage e st sock data
  | Close sock => let '(st', out) := onClose e st sock in Returned st' out
  end.

Inductive steps : Server → list (Env * Event) → Server → Prop :=
  | steps_nil st : steps st [] st
  | steps_cons st e ev st' out tr st'' :
      step e st ev = Returned st' out →
      steps st' tr st'' →
      steps st ((e, ev) :: tr) st''.

Definition reachable (st : Server) : Prop := ∃ tr, steps initial tr st.

(** ** Vocabulary of the statements *)

(** A draw whose identifier names an open room. *)
Definition taken (rs : gmap string (list WebSocket)) (u : Q) : Prop :=
  is_Some (rs !! generateRoomId u).

(** The tables after a successful create-room and join-room. *)
Definition created (st : Server) (sock : WebSocket) (roomId : string) : Server :=
  {| users := <[sock := mkUser sock roomId]> (users st);
     rooms := <[roomId := [sock]]> (rooms st) |}.

Definition joined (st : Server) (sock : WebSocket) (r : string)
    (roomSockets : list WebSocket) : Server :=
  {| users := <[sock := mkUser sock r]> (users st);
     rooms := <[r := setAdd sock roomSockets]> (rooms st) |}.

(** What holds of the tables in every reachable state. *)
Record Inv (st : Server) : Prop := mkInv {
  inv_size : ∀ r ms, rooms st !! r = Some ms →
             1 ≤ length ms ≤ MAX_USERS_PER_ROOM;
  inv_registered : ∀ c u, users st !! c = Some u →
             ∃ ms, rooms st !! room u = Some ms ∧ c ∈ ms;
  inv_named : ∀ r, is_Some (rooms st !! r) → ∃ u, r = generateRoomId u;
  inv_nodup : ∀ r ms, rooms st !! r = Some ms → NoDup ms;
  inv_socket : ∀ c u, users st !! c = Some u → socket u = c;
}.

(** ** Reading an inbound envelope *)

(** [v.k] where the read is known not to raise. *)
Definition field (v : jsval) (k : string) : jsval :=
  match getProp v k with
  | Normal x => x
  | TypeError => None
  end.

(** The envelope's [type] is the string [k]. *)
Definition isKind (data : jsval) (k : string) : Prop :=
  strictEq (field data "type") k = true.

(** The destructured [message.payload || {}]. *)
Definition payloadField (data : jsval) (k : string) : jsval :=
  field (orEmpty (field data "payload")) k.

(** Envelopes of kind delivered. *)
Definition isDelivered (o : WebSocket * envelope) : bool :=
  match o.2 with
  | EDelivered _ => true
  | _ => false
  end.

(** ** Executable runs and the scenarios of the specification *)

Fixpoint exec (st : Server) (tr : list (Env * Event)) : option Server :=
  match tr with
  | [] => Some st
  | (e, ev) :: tr' =>
      match step e st ev with
      | Returned st' _ => exec st' tr'
      | _ => None
      end
  end.

Module Scenario.
Definition A : WebSocket := 1.
Definition B : WebSocket := 2.
Definition C : WebSocket := 3.

(** Every socket open; [Math.random] yields the given draws. *)
Definition env (draws : list Q) : Env :=
  {| isOpen := λ _, true; random := draws |}.

(** The draw that makes [generateRoomId] return ["4821"]. *)
Definition u4821 : Q := 3821 # 9000.

Definition createRoom : jsval := Some (JObj [("type", JStr "create-room")]).
Definition joinRoom (r : string) : jsval :=
  Some (JObj [("type", JStr "join-room"); ("payload", JObj [("room", JStr r)])]).
Definition chat (id text : string) : jsval :=
  Some (JObj [("type", JStr "message");
              ("payload", JObj [("id", JStr id); ("text", JStr text)])]).
Definition seen (id : string) : jsval :=
  Some (JObj [("type", JStr "seen"); ("payload", JObj [("id", JStr id)])]).

(** A has created room 4821. *)
Definition trA : list (Env * Event) := [(env [u4821], Message A createRoom)].
Definition stA : Server :=
  {| users := {[ A := mkUser A "4821" ]}; rooms := {[ "4821" := [A] ]} |}.

(** B has joined it. *)
Definition trAB : list (Env * Event) :=
  trA ++ [(env [], Message B (joinRoom "4821"))].
Definition stAB : Server :=
  {| users := {[ A := mkUser A "4821"; B := mkUser B "4821" ]};
     rooms := {[ "4821" := [A; B] ]} |}.

(** B has left again, then A: the room is gone. *)
Definition trABleft : list (Env * Event) :=
  trAB ++ [(env [], Close B); (env [], Close A)].

(** Every socket open but [c], whose close is under way. *)
Definition envClosing (c : WebSocket) : Env :=
  {| isOpen := λ x, bool_decide (x ≠ c); random := [] |}.

(** A and B have each created a room of their own. *)
Definition trTwoRooms : list (Env * Event) :=
  [(env [u4821], Message A createRoom); (env [0%Q], Message B createRoom)].
Definition stTwoRooms : Server :=
  {| users := {[ A := mkUser A "4821"; B := mkUser B "1000" ]};
     rooms := {[ "4821" := [A]; "1000" := [B] ]} |}.
End Scenario.

(** ** The answers of the message listener, branch by branch *)

(** [answer e st sock data st' out]: one normal return of the listener,
    with the branch that produced it. *)
Inductive answer (e : Env) (st : Server) (sock : WebSocket) (data : jsval)
  : Server → sent → Prop :=
  | answer_unparseable :
      data = None →
      answer e st sock data st [(sock, EError "Invalid JSON format")]
  | answer_silent :
      data ≠ None →
      answer e st sock data st []
  | answer_created roomId :
      isKind data "create-room" → users st !! sock = None →
      createUniqueRoomId (rooms st) (random e) = Some roomId →
      answer e st sock data (created st sock roomId)
        ((sock, ERoomCreated roomId) ::
         map (λ client, (client, EUserCount 1 MAX_USERS_PER_ROOM))
             (filter (λ client, isOpen e client = true) [sock]))
  | answer_no_room :
      isKind data "join-room" →
      roomsGet (rooms st) (payloadField data "room") = None
        ∨ truthy (payloadField data "room") = false →
      answer e st sock data st [(sock, EError "Room does not exist")]
  | answer_full r roomSockets :
      isKind data "join-room" →
      payloadField data "room" = Some (JStr r) →
      rooms st !! r = Some roomSockets →
      MAX_USERS_PER_ROOM ≤ length roomSockets →
      answer e st sock data st [(sock, EError "Room is full")]
  | answer_joined r roomSockets :
      isKind data "join-room" →
      payloadField data "room" = Some (JStr r) →
      rooms st !! r = Some roomSockets →
      length roomSockets < MAX_USERS_PER_ROOM →
      answer e st sock data (joined st sock r roomSockets)
        ((sock, EJoined r) ::
         map (λ client, (client, EUserCount (length (setAdd sock roomSockets))
                                           MAX_USERS_PER_ROOM))
             (filter (λ client, isOpen e client = true) (setAdd sock roomSockets)))
  | answer_typing user roomSockets :
      isKind data "typing" →
      users st !! sock = Some user → rooms st !! room user = Some roomSockets →
      answer e st sock data st
        (map (λ client, (client, ETyping (field (field data "payload") "typing")))
             (filter (λ client, client ≠ sock ∧ isOpen e client = true) roomSockets))
  | answer_message user roomSockets :
      isKind data "message" →
      users st !! sock = Some user → rooms st !! room user = Some roomSockets →
      truthy (payloadField data "id") = true →
      truthy (payloadField data "text") = true →
      answer e st sock data st
        (map (λ client, (client, EMessage (payloadField data "id")
                                          (payloadField data "text")))
             (filter (λ client, client ≠ sock ∧ isOpen e client = true) roomSockets)
         ++ [(sock, EDelivered (payloadField data "id"))])
  | answer_seen user roomSockets :
      isKind data "seen" →
      users st !! sock = Some user → rooms st !! room user = Some roomSockets →
      truthy (payloadField data "id") = true →
      answer e st sock data st
        (map (λ client, (client, ESeen (payloadField data "id")))
             (filter (λ client, isOpen e client = true) roomSockets)).

(** A typing envelope as the client's input field sends it. *)
Definition typingEnvelope (b : bool) : jsval :=
  Some (JObj [("type", JStr "typing"); ("payload", JObj [("typing", JBool b)])]).

(** ** The envelopes on the wire *)

(** An object literal of the server drops a field whose value is
    [undefined] when it is stringified. *)
Definition optField (k : string) (v : jsval) : list (string * json) :=
  match v with
  | Some x => [(k, x)]
  | None => []
  end.

Definition envelopeOf (type : string) (payload : list (string * json)) : json :=
  JObj [("type", JStr type); ("payload", JObj payload)].

(** What a client parses from the frame the server made of an envelope. *)
Definition wire (env : envelope) : json :=
  match env with
  | EError message => envelopeOf "error" [("message", JStr message)]
  | ERoomCreated room => envelopeOf "room-created" [("room", JStr room)]
  | EJoined room => envelopeOf "joined" [("room", JStr room)]
  | EUserCount count max =>
      envelopeOf "user-count"
        [("count", JNum (inject_Z (Z.of_nat count)));
         ("max", JNum (inject_Z (Z.of_nat max)))]
  | ETyping typing => envelopeOf "typing" (optField "typing" typing)
  | EMessage id text =>
      envelopeOf "message" (optField "id" id ++ optField "message" text)
  | EDelivered id => envelopeOf "delivered" (optField "id" id)
  | ESeen id => envelopeOf "seen" (optField "id" id)
  end.

(** ** The client *)

Module Client.

Inductive Screen : Type := home | chat.

Record Message : Type := mkMessage { id : jsval; text : jsval; self : bool }.

(** The state hooks of [App]. *)
Record State : Type := mkState {
  screen : Screen;
  roomId : jsval;
  inputRoom : string;
  messages : list Message;
  draft : string;          (* the state variable [text] *)
  typing : jsval;
  userCount : string;
  connected : bool;
}.

Definition initialState : State :=
  {| screen := home; roomId := Some (JStr ""); inputRoom := "";
     messages := []; draft := ""; typing := Some (JBool false);
     userCount := "0"; connected := false |}.

(** [readyState] of the browser's socket. *)
Inductive ReadyState : Type := CONNECTING | OPEN | CLOSING | CLOSED.

Record Browser : Type := mkBrowser {
  socketRef : option ReadyState;   (* socketRef.current, [None] for null *)
  randomUUID : string;             (* the next crypto.randomUUID() *)
}.

(** A handler returns, or raises after the state updates it had queued;
    [frames] are the frames handed to the network. *)
Inductive result : Type :=
  | Done (c : State) (frames : list json)
  | Raised (c : State) (frames : list json).

(** [socketRef.current?.send(frame)]: skipped on a null ref, an
    InvalidStateError while connecting, transmitted when open, discarded
    when closing or closed. *)
Inductive sending : Type :=
  | Sent (frames : list json)
  | InvalidStateError.

Definition send (b : Browser) (frame : json) : sending :=
  match socketRef b with
  | None => Sent []
  | Some CONNECTING => InvalidStateError
  | Some OPEN => Sent [frame]
  | Some CLOSING | Some CLOSED => Sent []
  end.

Section Builtins.

Variable trim : string → string.          (* String.prototype.trim *)
Variable numberToString : Q → string.     (* Number::toString *)

Fixpoint join (parts : list string) : string :=
  match parts with
  | [] => ""
  | [p] => p
  | p :: rest => p +:+ "," +:+ join rest
  end.

(** ToString of a parsed JSON value, as a template literal applies it. *)
Fixpoint toStr (v : json) : string :=
  match v with
  | JNull => "null"
  | JBool true => "true"
  | JBool false => "false"
  | JNum q => numberToString q
  | JStr s => s
  | JArr items =>
      join (map (λ x, match x with JNull => "" | _ => toStr x end) items)
  | JObj _ => "[object Object]"
  end.

Definition ToString (v : jsval) : string :=
  match v with
  | None => "undefined"
  | Some x => toStr x
  end.

Definition bind {A B} (c : completion A) (k : A → completion B) : completion B :=
  match c with
  | Normal a => k a
  | TypeError => TypeError
  end.

(** One [if (data.type === k) { ... }] of the message handler. *)
Definition whenType (data : jsval) (k : string) (c : State)
    (body : completion State) : completion State :=
  bind (getProp data "type") (λ type, if strictEq type k then body else Normal c).

(** [data.payload.k]. *)
Definition payloadProp (data : jsval) (k : string) : completion jsval :=
  bind (getProp data "payload") (λ payload, getProp payload k).

Definition onmessage (c : State) (frame : jsval) : result :=
  match frame with
  | None => Raised c []   (* JSON.parse raises SyntaxError *)
  | Some _ =>
    let data := frame in
    let run :=
      bind (whenType data "room-created" c
              (bind (payloadProp data "room") (λ room,
                 Normal {| screen := chat; roomId := room;
                           inputRoom := inputRoom c; messages := messages c;
                           draft := draft c; typing := typing c;
                           userCount := userCount c; connected := connected c |})))
      (λ c,
      bind (whenType data "joined" c
              (bind (payloadProp data "room") (λ room,
                 Normal {| screen := chat; roomId := room;
                           inputRoom := inputRoom c; messages := messages c;
                           draft := draft c; typing := typing c;
                           userCount := userCount c; connected := connected c |})))
      (λ c,
      bind (whenType data "user-count" c
              (bind (payloadProp data "count") (λ count,
               bind (payloadProp data "max") (λ max,
                 Normal {| screen := screen c; roomId := roomId c;
                           inputRoom := inputRoom c; messages := messages c;
                           draft := draft c; typing := typing c;
                           userCount := ToString count +:+ "/" +:+ ToString max;
                           connected := connected c |}))))
      (λ c,
      bind (whenType data "message" c
              (bind (payloadProp data "id") (λ id,
               bind (payloadProp data "message") (λ message,
                 Normal {| screen := screen c; roomId := roomId c;
                           inputRoom := inputRoom c;
                           messages := messages c ++ [mkMessage id message false];
                           draft := draft c; typing := typing c;
                           userCount := userCount c; connected := connected c |}))))
      (λ c,
      whenType data "typing" c
              (bind (payloadProp data "typing") (λ typing,
                 Normal {| screen := screen c; roomId := roomId c;
                           inputRoom := inputRoom c; messages := messages c;
                           draft := draft c; typing := typing;
                           userCount := userCount c; connected := connected c |}))))))
    in
    match run with
    | Normal c' => Done c' []
    | TypeError => Raised c []
    end
  end.

Definition createRoom (b : Browser) (c : State) : result :=
  match send b (JObj [("type", JStr "create-room")]) with
  | Sent frames => Done c frames
  | InvalidStateError => Raised c []
  end.

Definition joinRoom (b : Browser) (c : State) : result :=
  if String.eqb (inputRoom c) "" then Done c []
  else
    match send b (envelopeOf "join-room" [("room", JStr (inputRoom c))]) with
    | Sent frames => Done c frames
    | InvalidStateError => Raised c []
    end.

Definition sendMessage (b : Browser) (c : State) : result :=
  if String.eqb (trim (draft c)) "" then Done c []
  else
    let id := randomUUID b in
    let c1 := {| screen := screen c; roomId := roomId c;
                 inputRoom := inputRoom c;
                 messages := messages c
                             ++ [mkMessage (Some (JStr id)) (Some (JStr (draft c))) true];
                 draft := draft c; typing := typing c;
                 userCount := userCount c; connected := connected c |} in
    match send b (envelopeOf "message"
                    [("id", JStr id); ("text", JStr (draft c))]) with
    | Sent frames =>
        Done {| screen := screen c1; roomId := roomId c1;
                inputRoom := inputRoom c1; messages := messages c1;
                draft := ""; typing := typing c1;
                userCount := userCount c1; connected := connected c1 |} frames
    | InvalidStateError => Raised c1 []
    end.

Definition handleKeyDown (b : Browser) (c : State) (key : string) : result :=
  if String.eqb key "Enter" then sendMessage b c else Done c [].

(** The input's [onFocus] and [onBlur]. *)
Definition onFocus (b : Browser) (c : State) : result :=
  match send b (envelopeOf "typing" [("typing", JBool true)]) with
  | Sent frames => Done c frames
  | InvalidStateError => Raised c []
  end.

Definition onBlur (b : Browser) (c : State) : result :=
  match send b (envelopeOf "typing" [("typing", JBool false)]) with
  | Sent frames => Done c frames
  | InvalidStateError => Raised c []
  end.

(** The envelopes addressed to one socket, handled in the order sent. *)
Fixpoint receive (c : State) (sock : WebSocket) (out : sent) : result :=
  match out with
  | [] => Done c []
  | (to, env) :: rest =>
      if decide (to = sock) then
        match onmessage c (Some (wire env)) with
        | Done c' _ => receive c' sock rest
        | Raised c' frames => Raised c' frames
        end
      else receive c sock rest
  end.

End Builtins.

End Client.

(** Stand-ins for the two builtins where a concrete run is computed: the
    identity trims nothing, and an integer prints as its decimal numeral. *)
Definition trimNothing (s : string) : string := s.
Definition integerToString (q : Q) : string := pretty (Qfloor q).

(** A client state that differs from [c] in its message list only. *)
Definition withMessages (c : Client.State) (ms : list Client.Message)
  : Client.State :=
  {| Client.screen := Client.screen c; Client.roomId := Client.roomId c;
     Client.inputRoom := Client.inputRoom c; Client.messages := ms;
     Client.draft := Client.draft c; Client.typing := Client.typing c;
     Client.userCount := Client.userCount c;
     Client.connected := Client.connected c |}.

(** A client state that differs from [c] in the displayed count only. *)
Definition withUserCount (c : Client.State) (count : string) : Client.State :=
  {| Client.screen := Client.screen c; Client.roomId := Client.roomId c;
     Client.inputRoom := Client.inputRoom c; Client.messages := Client.messages c;
     Client.draft := Client.draft c; Client.typing := Client.typing c;
     Client.userCount := count; Client.connected := Client.connected c |}.

(** The client state after entering [room]: the chat screen with the room's
    code and the displayed count, everything else as in [c]. *)
Definition inRoom (c : Client.State) (room count : string) : Client.State :=
  {| Client.screen := Client.chat; Client.roomId := Some (JStr room);
     Client.inputRoom := Client.inputRoom c; Client.messages := Client.messages c;
     Client.draft := Client.draft c; Client.typing := Client.typing c;
     Client.userCount := count; Client.connected := Client.connected c |}.

(** The state a handler leaves behind, whether it returned or raised. *)
Definition after (r : Client.result) : Client.State :=
  match r with
  | Client.Done c _ | Client.Raised c _ => c
  end.

(** [c'] shows the messages of [c] followed by new ones, all flagged [own]. *)
Definition extends (own : bool) (c c' : Client.State) : Prop :=
  ∃ new, Client.messages c' = Client.messages c ++ new
         ∧ Forall (λ m, Client.self m = own) new.

(** A browser with an open socket, and a client about to send "hi". *)
Definition browserOpen : Client.Browser :=
  {| Client.socketRef := Some Client.OPEN; Client.randomUUID := "m1" |}.

Definition clientTyped (draft room : string) : Client.State :=
  {| Client.screen := Client.home; Client.roomId := Some (JStr "");
     Client.inputRoom := room; Client.messages := []; Client.draft := draft;
     Client.typing := Some (JBool false); Client.userCount := "0";
     Client.connected := true |}.

(** * Properties *)

(** ** The loop of the room id generator *)

Lemma createUniqueRoomId_spec rs draws :
  match createUniqueRoomId rs draws with
  | Some id =>
      rs !! id = None ∧
      ∃ used u rest, draws = used ++ u :: rest ∧ id = generateRoomId u ∧
                     Forall (taken rs) used
  | None => Forall (taken rs) draws
  end.
Proof.
  induction draws as [|u rest IH]; simpl; [constructor|].
  destruct (decide (is_Some (rs !! generateRoomId u))) as [Hin|Hout].
  - destruct (createUniqueRoomId rs rest) as [id|].
    + destruct IH as (Hfresh & used & v & tl & -> & -> & Hused).
      split; [done|]. exists (u :: used), v, tl. by repeat constructor.
    + by constructor.
  - split; [by apply eq_None_not_Some|].
    exists [], u, rest. by repeat constructor.
Qed.

Lemma createUniqueRoomId_fresh rs draws id :
  createUniqueRoomId rs draws = Some id → rs !! id = None.
Proof.
  intros H. pose proof (createUniqueRoomId_spec rs draws) as S.
  rewrite H in S. tauto.
Qed.

Lemma createUniqueRoomId_generated rs draws id :
  createUniqueRoomId rs draws = Some id → ∃ u, id = generateRoomId u.
Proof.
  intros H. pose proof (createUniqueRoomId_spec rs draws) as S.
  rewrite H in S. destruct S as (_ & _ & u & _ & _ & -> & _). eauto.
Qed.

Lemma createUniqueRoomId_returns rs draws :
  Exists (λ u, rs !! generateRoomId u = None) draws →
  is_Some (createUniqueRoomId rs draws).
Proof.
  intros Hex. pose proof (createUniqueRoomId_spec rs draws) as S.
  destruct (createUniqueRoomId rs draws); [eauto|].
  apply Exists_exists in Hex as (u & Hu & Hfree).
  rewrite Forall_forall in S. destruct (S u Hu) as [? ?]. congruence.
Qed.

(** A decimal rendering is never the empty string, so neither is a room id. *)
Lemma pretty_N_go_nonempty (x : N) (s : string) :
  s ≠ "" → pretty_N_go x s ≠ "".
Proof.
  revert s. induction (N.lt_wf_0 x) as [x _ IH]; intros s Hs.
  destruct (decide (x = 0%N)) as [->|Hx]; [by rewrite pretty_N_go_0|].
  rewrite pretty_N_go_step by lia.
  apply IH; [apply N.div_lt; lia|done].
Qed.

Lemma pretty_N_nonempty (x : N) : pretty x ≠ "".
Proof.
  unfold pretty, pretty_N. case_decide; [done|].
  rewrite pretty_N_go_step by lia. by apply pretty_N_go_nonempty.
Qed.

Lemma generateRoomId_nonempty u : generateRoomId u ≠ "".
Proof.
  unfold generateRoomId, pretty, pretty_Z.
  destruct (Qfloor _); [done| |done].
  apply pretty_N_nonempty.
Qed.

(** ** What a listener can do to the tables *)

Lemma onMessage_state e st sock data st' out :
  onMessage e st sock data = Returned st' out →
  st' = st
  ∨ (∃ roomId, users st !! sock = None ∧
        createUniqueRoomId (rooms st) (random e) = Some roomId ∧
        st' = created st sock roomId)
  ∨ (∃ r roomSockets, rooms st !! r = Some roomSockets ∧
        length roomSockets < MAX_USERS_PER_ROOM ∧
        st' = joined st sock r roomSockets).
Proof.
  unfold onMessage, try_. intros H.
  repeat (case_match; simplify_eq/=); auto.
  - right; left. eexists; split_and!; eauto. by apply eq_None_not_Some.
  - right; right. do 2 eexists; split_and!; eauto.
    unfold MAX_USERS_PER_ROOM; lia.
  - right; right. do 2 eexists; split_and!; eauto.
    unfold MAX_USERS_PER_ROOM; lia.
Qed.

Lemma broadcastUserCount_None e st roomId :
  rooms st !! roomId = None → broadcastUserCount e st roomId = [].
Proof. unfold broadcastUserCount. by intros ->. Qed.

Lemma onClose_unregistered e st sock :
  users st !! sock = None → onClose e st sock = (st, []).
Proof. unfold onClose. by intros ->. Qed.

Lemma onClose_last e st sock user roomSockets :
  users st !! sock = Some user →
  rooms st !! room user = Some roomSockets →
  setDelete sock roomSockets = [] →
  onClose e st sock =
    ({| users := delete sock (users st);
        rooms := delete (room user) (rooms st) |}, []).
Proof.
  unfold onClose. intros -> -> ->. simpl. by rewrite delete_insert_eq.
Qed.

Lemma onClose_remaining e st sock user roomSockets :
  users st !! sock = Some user →
  rooms st !! room user = Some roomSockets →
  setDelete sock roomSockets ≠ [] →
  onClose e st sock =
    ({| users := delete sock (users st);
        rooms := <[room user := setDelete sock roomSockets]> (rooms st) |},
     map (λ client, (client, EUserCount (length (setDelete sock roomSockets))
                                       MAX_USERS_PER_ROOM))
         (filter (λ client, isOpen e client = true)
                 (setDelete sock roomSockets))).
Proof.
  unfold onClose. intros -> -> Hne.
  destruct (setDelete sock roomSockets) as [|c rest] eqn:Hdel; [done|].
  simpl. unfold broadcastUserCount. simpl. by rewrite lookup_insert_eq.
Qed.

Lemma onClose_roomless e st sock user :
  users st !! sock = Some user →
  rooms st !! room user = None →
  onClose e st sock =
    ({| users := delete sock (users st); rooms := rooms st |}, []).
Proof.
  unfold onClose. intros -> Hnone. rewrite Hnone.
  by rewrite broadcastUserCount_None.
Qed.

(** ** Sets as duplicate-free lists *)

Lemma elem_of_setAdd c x s : x ∈ setAdd c s ↔ x = c ∨ x ∈ s.
Proof.
  unfold setAdd. case_decide.
  - split; [auto|]. by intros [->|?].
  - rewrite elem_of_app, list_elem_of_singleton. tauto.
Qed.

Lemma length_setAdd c s : length s ≤ length (setAdd c s) ≤ S (length s).
Proof. unfold setAdd. case_decide; [lia|]. rewrite length_app. simpl. lia. Qed.

Lemma NoDup_setAdd c s : NoDup s → NoDup (setAdd c s).
Proof.
  unfold setAdd. intros Hs. case_decide; [done|].
  apply NoDup_app. split_and!; [done| |apply NoDup_singleton].
  intros x Hx ->%list_elem_of_singleton. done.
Qed.

Lemma elem_of_setDelete c x s : x ∈ setDelete c s ↔ x ∈ s ∧ x ≠ c.
Proof. unfold setDelete. rewrite list_elem_of_filter. tauto. Qed.

Lemma length_setDelete c s : length (setDelete c s) ≤ length s.
Proof. apply length_filter. Qed.

Lemma NoDup_setDelete c s : NoDup s → NoDup (setDelete c s).
Proof. apply NoDup_filter. Qed.

(** ** Invariants of the two tables *)

Lemma Inv_initial : Inv initial.
Proof.
  split; simpl; intros *; rewrite ?lookup_empty; done.
Qed.

Lemma Inv_created st sock draws roomId :
  Inv st → createUniqueRoomId (rooms st) draws = Some roomId →
  Inv (created st sock roomId).
Proof.
  intros [Hsz Hreg Hnam Hnd Hsk] Hid.
  pose proof (createUniqueRoomId_fresh _ _ _ Hid) as Hfresh.
  split; simpl.
  - intros r ms. rewrite lookup_insert. case_decide; [|by apply Hsz].
    intros [= <-]. unfold MAX_USERS_PER_ROOM. simpl. lia.
  - intros c u. rewrite lookup_insert. case_decide as Hc.
    + intros [= <-]. subst c. simpl. rewrite lookup_insert_eq.
      eexists; split; [done|]. by apply list_elem_of_singleton.
    + intros Hu. destruct (Hreg c u Hu) as (ms & Hms & Hin).
      exists ms. split; [|done]. rewrite lookup_insert_ne; [done|].
      intros ->. congruence.
  - intros r. rewrite lookup_insert. case_decide; [|by apply Hnam].
    intros _. subst r. by eapply createUniqueRoomId_generated.
  - intros r ms. rewrite lookup_insert. case_decide; [|by apply Hnd].
    intros [= <-]. apply NoDup_singleton.
  - intros c u. rewrite lookup_insert. case_decide; [|by apply Hsk].
    by intros [= <-].
Qed.

Lemma Inv_joined st sock r roomSockets :
  Inv st → rooms st !! r = Some roomSockets →
  length roomSockets < MAX_USERS_PER_ROOM →
  Inv (joined st sock r roomSockets).
Proof.
  intros [Hsz Hreg Hnam Hnd Hsk] Hr Hlt.
  pose proof (length_setAdd sock roomSockets) as Hlen.
  split; simpl.
  - intros r' ms. rewrite lookup_insert. case_decide; [|by apply Hsz].
    intros [= <-]. destruct (Hsz _ _ Hr). lia.
  - intros c u. rewrite lookup_insert. case_decide as Hc.
    + intros [= <-]. subst c. simpl. rewrite lookup_insert_eq.
      eexists; split; [done|]. apply elem_of_setAdd. by left.
    + intros Hu. destruct (Hreg c u Hu) as (ms & Hms & Hin).
      rewrite lookup_insert. case_decide as Hroom.
      * eexists; split; [done|]. apply elem_of_setAdd. right.
        rewrite <- Hroom in Hms. congruence.
      * by exists ms.
  - intros r'. rewrite lookup_insert. case_decide; [|by apply Hnam].
    intros _. subst r'. apply Hnam. by rewrite Hr.
  - intros r' ms. rewrite lookup_insert. case_decide; [|by apply Hnd].
    intros [= <-]. apply NoDup_setAdd. by eapply Hnd.
  - intros c u. rewrite lookup_insert. case_decide; [|by apply Hsk].
    by intros [= <-].
Qed.

Lemma Inv_onMessage e st sock data st' out :
  Inv st → onMessage e st sock data = Returned st' out → Inv st'.
Proof.
  intros HI H. apply onMessage_state in H
    as [->|[(roomId & _ & Hid & ->)|(r & ms & Hr & Hlt & ->)]]; [done|..].
  - by eapply Inv_created.
  - by apply Inv_joined.
Qed.

Lemma Inv_onClose e st sock :
  Inv st → Inv (onClose e st sock).1.
Proof.
  intros HI. destruct (users st !! sock) as [user|] eqn:Hu;
    [|by rewrite onClose_unregistered].
  destruct HI as [Hsz Hreg Hnam Hnd Hsk].
  destruct (Hreg _ _ Hu) as (ms & Hms & Hin).
  pose proof (length_setDelete sock ms) as Hlen.
  destruct (decide (setDelete sock ms = [])) as [Hempty|Hrest].
  - rewrite (onClose_last _ _ _ _ _ Hu Hms Hempty). split; simpl.
    + intros r ms'. rewrite lookup_delete. case_decide; [done|]. apply Hsz.
    + intros c u. rewrite lookup_delete. case_decide as Hc; [done|].
      intros Hcu. destruct (Hreg _ _ Hcu) as (ms' & Hms' & Hin').
      exists ms'. split; [|done]. rewrite lookup_delete_ne; [done|].
      intros Heq. rewrite <- Heq, Hms in Hms'. simplify_eq.
      assert (c ∈ setDelete sock ms') as Hc' by (apply elem_of_setDelete; auto).
      rewrite Hempty in Hc'. by apply not_elem_of_nil in Hc'.
    + intros r. rewrite lookup_delete. case_decide; [by intros [? ?]|].
      apply Hnam.
    + intros r ms'. rewrite lookup_delete. case_decide; [done|]. apply Hnd.
    + intros c u. rewrite lookup_delete. case_decide; [done|]. apply Hsk.
  - rewrite (onClose_remaining _ _ _ _ _ Hu Hms Hrest). split; simpl.
    + intros r ms'. rewrite lookup_insert. case_decide; [|by apply Hsz].
      intros [= <-]. destruct (Hsz _ _ Hms).
      destruct (setDelete sock ms); [done|]. simpl in *. lia.
    + intros c u. rewrite lookup_delete. case_decide as Hc; [done|].
      intros Hcu. destruct (Hreg _ _ Hcu) as (ms' & Hms' & Hin').
      rewrite lookup_insert. case_decide as Hroom; [|by exists ms'].
      eexists; split; [done|]. apply elem_of_setDelete.
      rewrite Hroom, Hms' in Hms. simplify_eq. auto.
    + intros r. rewrite lookup_insert. case_decide; [|by apply Hnam].
      intros _. subst r. apply Hnam. by rewrite Hms.
    + intros r ms'. rewrite lookup_insert. case_decide; [|by apply Hnd].
      intros [= <-]. apply NoDup_setDelete. by eapply Hnd.
    + intros c u. rewrite lookup_delete. case_decide; [done|]. apply Hsk.
Qed.

Lemma Inv_step e st ev st' out :
  Inv st → step e st ev = Returned st' out → Inv st'.
Proof.
  intros HI. destruct ev as [sock data|sock]; simpl.
  - by apply Inv_onMessage.
  - pose proof (Inv_onClose e st sock HI) as HI'.
    destruct (onClose e st sock). by intros [= <- <-].
Qed.

Lemma Inv_steps st tr st' : steps st tr st' → Inv st → Inv st'.
Proof. induction 1; eauto using Inv_step. Qed.

Lemma Inv_reachable st : reachable st → Inv st.
Proof. intros [tr Htr]. eapply Inv_steps; [done|]. apply Inv_initial. Qed.

Lemma steps_app st tr1 st' tr2 st'' :
  steps st tr1 st' → steps st' tr2 st'' → steps st (tr1 ++ tr2) st''.
Proof. induction 1; simpl; [done|]. intros. econstructor; eauto. Qed.

Lemma reachable_steps st tr st' : reachable st → steps st tr st' → reachable st'.
Proof. intros [tr0 H0] H. exists (tr0 ++ tr). by eapply steps_app. Qed.

(** ** Facts about envelope reads *)

Lemma isKind_inv data k :
  isKind data k →
  ∃ fields, data = Some (JObj fields) ∧ assoc "type" fields = Some (JStr k).
Proof.
  unfold isKind, field, strictEq, getProp. intros H.
  destruct data as [[| | | | |fields]|]; try done.
  exists fields. split; [done|].
  destruct (assoc "type" fields) as [[| | |t| |]|]; try done.
  by apply String.eqb_eq in H as ->.
Qed.

Lemma truthy_orEmpty v : truthy (orEmpty v) = true.
Proof. unfold orEmpty. by destruct (truthy v) eqn:E. Qed.

Lemma getProp_truthy v k : truthy v = true → getProp v k = Normal (field v k).
Proof. unfold field. by destruct v as [[| | | | |]|]. Qed.

Lemma orEmpty_getProp v k : getProp (orEmpty v) k = Normal (field (orEmpty v) k).
Proof. apply getProp_truthy, truthy_orEmpty. Qed.

Lemma payloadField_absent data k :
  field data "payload" = None → payloadField data k = None.
Proof. unfold payloadField. by intros ->. Qed.

Lemma roomsHas_true rs k :
  roomsHas rs k = true ↔ ∃ r ms, k = Some (JStr r) ∧ rs !! r = Some ms.
Proof.
  unfold roomsHas, roomsGet. rewrite bool_decide_eq_true. split.
  - intros [ms Hms]. destruct k as [[| | |r| |]|]; try done. eauto.
  - intros (r & ms & -> & Hms). eauto.
Qed.

Lemma roomsHas_false rs k : roomsHas rs k = false ↔ roomsGet rs k = None.
Proof.
  unfold roomsHas. rewrite bool_decide_eq_false, eq_None_not_Some. tauto.
Qed.

(** ** The branches of the message listener *)

Lemma onMessage_unparseable e st sock :
  onMessage e st sock None = Returned st [(sock, EError "Invalid JSON format")].
Proof. done. Qed.

Lemma payloadField_obj fields k :
  payloadField (Some (JObj fields)) k
  = field (orEmpty (assoc "payload" fields)) k.
Proof. done. Qed.

Lemma onMessage_join_missing e st sock data :
  isKind data "join-room" →
  truthy (payloadField data "room") = false
    ∨ roomsGet (rooms st) (payloadField data "room") = None →
  onMessage e st sock data = Returned st [(sock, EError "Room does not exist")].
Proof.
  intros (fields & -> & Hty)%isKind_inv Hroom.
  rewrite payloadField_obj in Hroom.
  unfold onMessage. simpl. rewrite Hty. simpl.
  rewrite orEmpty_getProp. simpl.
  destruct Hroom as [->|Hnone%roomsHas_false]; [done|].
  rewrite Hnone. by rewrite orb_true_r.
Qed.

Lemma onMessage_join_full e st sock data r roomSockets :
  isKind data "join-room" →
  payloadField data "room" = Some (JStr r) → r ≠ "" →
  rooms st !! r = Some roomSockets →
  MAX_USERS_PER_ROOM ≤ length roomSockets →
  onMessage e st sock data = Returned st [(sock, EError "Room is full")].
Proof.
  intros (fields & -> & Hty)%isKind_inv Hroom Hr Hms Hfull.
  rewrite payloadField_obj in Hroom.
  unfold onMessage. simpl. rewrite Hty. simpl.
  rewrite orEmpty_getProp. simpl. rewrite Hroom. simpl.
  assert (roomsHas (rooms st) (Some (JStr r)) = true) as ->
    by (apply roomsHas_true; eauto).
  apply String.eqb_neq in Hr as ->. simpl. rewrite Hms.
  unfold MAX_USERS_PER_ROOM in Hfull.
  destruct roomSockets as [|? [|? ?]]; simpl in Hfull; [lia|lia|done].
Qed.

Lemma onMessage_join_ok e st sock data r roomSockets :
  isKind data "join-room" →
  payloadField data "room" = Some (JStr r) → r ≠ "" →
  rooms st !! r = Some roomSockets →
  length roomSockets < MAX_USERS_PER_ROOM →
  onMessage e st sock data =
    Returned (joined st sock r roomSockets)
      ((sock, EJoined r) ::
       map (λ client, (client, EUserCount (length (setAdd sock roomSockets))
                                         MAX_USERS_PER_ROOM))
           (filter (λ client, isOpen e client = true) (setAdd sock roomSockets))).
Proof.
  intros (fields & -> & Hty)%isKind_inv Hroom Hr Hms Hlt.
  rewrite payloadField_obj in Hroom.
  unfold onMessage. simpl. rewrite Hty. simpl.
  rewrite orEmpty_getProp. simpl. rewrite Hroom. simpl.
  assert (roomsHas (rooms st) (Some (JStr r)) = true) as ->
    by (apply roomsHas_true; eauto).
  apply String.eqb_neq in Hr as ->. simpl. rewrite Hms.
  unfold MAX_USERS_PER_ROOM in Hlt.
  destruct roomSockets as [|? [|? ?]]; simpl in Hlt; try lia;
    unfold broadcastUserCount, joined; simpl; by rewrite lookup_insert_eq.
Qed.

Lemma onMessage_create_assigned e st sock data :
  isKind data "create-room" → is_Some (users st !! sock) →
  onMessage e st sock data = Returned st [].
Proof.
  intros (fields & -> & Hty)%isKind_inv Hu.
  unfold onMessage. simpl. rewrite Hty. simpl. by rewrite decide_True.
Qed.

Lemma onMessage_create e st sock data roomId :
  isKind data "create-room" → users st !! sock = None →
  createUniqueRoomId (rooms st) (random e) = Some roomId →
  onMessage e st sock data =
    Returned (created st sock roomId)
      ((sock, ERoomCreated roomId) ::
       map (λ client, (client, EUserCount 1 MAX_USERS_PER_ROOM))
           (filter (λ client, isOpen e client = true) [sock])).
Proof.
  intros (fields & -> & Hty)%isKind_inv Hu Hid.
  unfold onMessage. simpl. rewrite Hty. simpl.
  rewrite decide_False by (rewrite Hu; by intros [? ?]).
  rewrite Hid. unfold broadcastUserCount, created. simpl.
  by rewrite lookup_insert_eq.
Qed.

Lemma onMessage_null e st sock : onMessage e st sock (Some JNull) = Threw st [].
Proof. done. Qed.

Section RoomScoped.
Variables (e : Env) (st : Server) (sock : WebSocket) (user : User).
Variable roomSockets : list WebSocket.
Hypothesis Huser : users st !! sock = Some user.
Hypothesis Hroom : rooms st !! room user = Some roomSockets.

Lemma onMessage_typing_throws data :
  isKind data "typing" →
  field data "payload" = None ∨ field data "payload" = Some JNull →
  onMessage e st sock data = Threw st [].
Proof using Huser Hroom.
  intros (fields & -> & Hty)%isKind_inv Hp.
  unfold onMessage. simpl. rewrite Hty. simpl. rewrite Huser, Hroom.
  unfold field in Hp. simpl in Hp. by destruct Hp as [-> | ->].
Qed.

Lemma onMessage_message data :
  isKind data "message" →
  truthy (payloadField data "id") = true →
  truthy (payloadField data "text") = true →
  onMessage e st sock data =
    Returned st
      (map (λ client, (client, EMessage (payloadField data "id")
                                        (payloadField data "text")))
           (filter (λ client, client ≠ sock ∧ isOpen e client = true)
                   roomSockets)
       ++ [(sock, EDelivered (payloadField data "id"))]).
Proof using Huser Hroom.
  intros (fields & -> & Hty)%isKind_inv Hid Htext.
  rewrite !payloadField_obj in *.
  unfold onMessage. simpl. rewrite Hty. simpl. rewrite Huser, Hroom.
  rewrite !orEmpty_getProp. simpl. by rewrite Hid, Htext.
Qed.

Lemma onMessage_seen data :
  isKind data "seen" →
  truthy (payloadField data "id") = true →
  onMessage e st sock data =
    Returned st
      (map (λ client, (client, ESeen (payloadField data "id")))
           (filter (λ client, isOpen e client = true) roomSockets)).
Proof using Huser Hroom.
  intros (fields & -> & Hty)%isKind_inv Hid.
  rewrite !payloadField_obj in *.
  unfold onMessage. simpl. rewrite Hty. simpl. rewrite Huser, Hroom.
  rewrite !orEmpty_getProp. simpl. by rewrite Hid.
Qed.
End RoomScoped.

Lemma onMessage_message_dropped e st sock data :
  isKind data "message" →
  truthy (payloadField data "id") = false
    ∨ truthy (payloadField data "text") = false →
  onMessage e st sock data = Returned st [].
Proof.
  intros (fields & -> & Hty)%isKind_inv Hfalsy.
  rewrite !payloadField_obj in *.
  unfold onMessage. simpl. rewrite Hty. simpl.
  destruct (users st !! sock) as [user|]; [|done].
  destruct (rooms st !! room user) as [roomSockets|]; [|done].
  rewrite !orEmpty_getProp. simpl.
  destruct Hfalsy as [-> | ->]; [done|]. by rewrite orb_true_r.
Qed.

Lemma onMessage_seen_dropped e st sock data :
  isKind data "seen" →
  truthy (payloadField data "id") = false →
  onMessage e st sock data = Returned st [].
Proof.
  intros (fields & -> & Hty)%isKind_inv Hfalsy.
  rewrite !payloadField_obj in *.
  unfold onMessage. simpl. rewrite Hty. simpl.
  destruct (users st !! sock) as [user|]; [|done].
  destruct (rooms st !! room user) as [roomSockets|]; [|done].
  rewrite !orEmpty_getProp. simpl. by rewrite Hfalsy.
Qed.

(** ** The scenarios are runs of the server *)

Lemma exec_steps st tr st' : exec st tr = Some st' → steps st tr st'.
Proof.
  revert st. induction tr as [|[e ev] tr IH]; simpl; intros st.
  - intros [= ->]. constructor.
  - destruct (step e st ev) as [st1 out| |] eqn:Hstep; try done.
    intros H. econstructor; eauto.
Qed.

Lemma Scenario_stA : steps initial Scenario.trA Scenario.stA.
Proof. apply exec_steps. vm_compute. reflexivity. Qed.

Lemma Scenario_stAB : steps initial Scenario.trAB Scenario.stAB.
Proof. apply exec_steps. vm_compute. reflexivity. Qed.

Lemma Scenario_left : steps initial Scenario.trABleft initial.
Proof. apply exec_steps. vm_compute. reflexivity. Qed.

(** ** Room occupancy *)

Lemma reachable_room_nonempty st r :
  reachable st → is_Some (rooms st !! r) → r ≠ "".
Proof.
  intros HI%Inv_reachable Hr. destruct (inv_named _ HI r Hr) as [u ->].
  apply generateRoomId_nonempty.
Qed.

(** C2. In every state reached by a sequence of listener runs from the empty
    tables, every room of the room table has at least 1 and at most 2
    members; a created room holds its creator alone, a join-room aimed at a
    room of 2 is refused and changes nothing, and the close that removes the
    last member removes the room in that same step (a close that leaves
    members keeps the room with the rest). *)
Theorem room_size_bounds tr st :
  steps initial tr st →
  (∀ r ms, rooms st !! r = Some ms → 1 ≤ length ms ≤ 2)
  ∧ (∀ e sock data roomId,
       isKind data "create-room" → users st !! sock = None →
       createUniqueRoomId (rooms st) (random e) = Some roomId →
       ∃ st' out, onMessage e st sock data = Returned st' out
                  ∧ rooms st' !! roomId = Some [sock])
  ∧ (∀ e sock data r ms,
       isKind data "join-room" → payloadField data "room" = Some (JStr r) →
       rooms st !! r = Some ms → length ms = 2 →
       onMessage e st sock data = Returned st [(sock, EError "Room is full")])
  ∧ (∀ e sock user ms,
       users st !! sock = Some user → rooms st !! room user = Some ms →
       rooms (onClose e st sock).1 !! room user
       = if decide (setDelete sock ms = []) then None
         else Some (setDelete sock ms)).
Proof.
  intros Hsteps.
  assert (reachable st) as Hreach by (by exists tr).
  pose proof (Inv_reachable _ Hreach) as HI.
  split_and!.
  - apply (inv_size _ HI).
  - intros e sock data roomId Hk Hu Hid.
    rewrite (onMessage_create _ _ _ _ _ Hk Hu Hid).
    do 2 eexists. split; [done|]. simpl. apply lookup_insert_eq.
  - intros e sock data r ms Hk Hroom Hms Hlen.
    eapply onMessage_join_full; eauto.
    + eapply reachable_room_nonempty; eauto.
    + unfold MAX_USERS_PER_ROOM. lia.
  - intros e sock user ms Hu Hms. case_decide as Hempty.
    + rewrite (onClose_last _ _ _ _ _ Hu Hms Hempty). simpl.
      apply lookup_delete_eq.
    + rewrite (onClose_remaining _ _ _ _ _ Hu Hms Hempty). simpl.
      apply lookup_insert_eq.
Qed.

Lemma room_size_bounds_witness :
  steps initial Scenario.trAB Scenario.stAB
  ∧ ∀ r ms, rooms Scenario.stAB !! r = Some ms → 1 ≤ length ms ≤ 2.
Proof.
  split; [apply Scenario_stAB|].
  apply (room_size_bounds Scenario.trAB Scenario.stAB Scenario_stAB).
Defined.

(** ** Issuing room identifiers *)

Lemma onMessage_keeps_rooms e st sock data st' out id :
  onMessage e st sock data = Returned st' out →
  is_Some (rooms st !! id) → is_Some (rooms st' !! id).
Proof.
  intros H Hid. apply onMessage_state in H
    as [->|[(roomId & _ & _ & ->)|(r & ms & _ & _ & ->)]]; [done|..]; simpl.
  - rewrite lookup_insert. by case_decide.
  - rewrite lookup_insert. by case_decide.
Qed.

(** A room that is open at the start of a run and gone at its end was
    removed by a close listener somewhere along the run. *)
Lemma room_closed_between st tr st' id :
  steps st tr st' → is_Some (rooms st !! id) → rooms st' !! id = None →
  ∃ tr1 e sock tr2 st1 st2 out,
    tr = tr1 ++ (e, Close sock) :: tr2 ∧ steps st tr1 st1 ∧
    onClose e st1 sock = (st2, out) ∧
    is_Some (rooms st1 !! id) ∧ rooms st2 !! id = None.
Proof.
  induction 1 as [st|st e ev st1 out tr st' Hstep Hrest IH]; intros Hopen Hgone.
  - rewrite Hgone in Hopen. by destruct Hopen.
  - destruct (rooms st1 !! id) as [ms|] eqn:Hmid.
    + destruct IH as (tr1 & e' & sock & tr2 & sa & sb & o & -> & Hpre & Hcl & Ha & Hb);
        [by eauto|done|].
      exists ((e, ev) :: tr1), e', sock, tr2, sa, sb, o.
      split_and!; try done. econstructor; eauto.
    + destruct ev as [sock data|sock]; simpl in Hstep.
      * pose proof (onMessage_keeps_rooms _ _ _ _ _ _ id Hstep Hopen) as Hkept.
        rewrite Hmid in Hkept. by destruct Hkept.
      * destruct (onClose e st sock) as [st2 o] eqn:Hcl. simplify_eq.
        exists [], e, sock, tr, st, st1, out.
        split_and!; try done. constructor.
Qed.

(** C4. Whatever run led to the current tables, the identifier that
    [createUniqueRoomId] returns is the first draw not naming an open room:
    it is the key of no open room, so the room created under it joins the
    open ones without replacing any (their number grows by one). The loop
    yields nothing only when every draw names an open room. If the
    identifier named a room that was open earlier in the run, a close
    listener deleted that room in between. *)
Theorem createUniqueRoomId_unused st0 tr st draws :
  steps st0 tr st →
  match createUniqueRoomId (rooms st) draws with
  | Some id =>
      rooms st !! id = None
      ∧ (∃ used u rest, draws = used ++ u :: rest ∧ id = generateRoomId u
                        ∧ Forall (taken (rooms st)) used)
      ∧ (∀ sock, size (rooms (created st sock id)) = S (size (rooms st))
                 ∧ ∀ r, r ≠ id → rooms (created st sock id) !! r = rooms st !! r)
      ∧ (is_Some (rooms st0 !! id) →
         ∃ tr1 e sock tr2 st1 st2 out,
           tr = tr1 ++ (e, Close sock) :: tr2 ∧ steps st0 tr1 st1 ∧
           onClose e st1 sock = (st2, out) ∧
           is_Some (rooms st1 !! id) ∧ rooms st2 !! id = None)
  | None => Forall (taken (rooms st)) draws
  end.
Proof.
  intros Hsteps. pose proof (createUniqueRoomId_spec (rooms st) draws) as Hspec.
  destruct (createUniqueRoomId (rooms st) draws) as [id|]; [|done].
  destruct Hspec as [Hfresh Hdraw]. split_and!; try done.
  - intros sock. simpl. split.
    + by apply map_size_insert_None.
    + intros r Hr. by apply lookup_insert_ne.
  - intros Hopen. by eapply room_closed_between.
Qed.

Lemma Scenario_reissue :
  steps Scenario.stA [(Scenario.env [], Close Scenario.A)] initial.
Proof. apply exec_steps. vm_compute. reflexivity. Qed.

Lemma createUniqueRoomId_unused_witness :
  steps Scenario.stA [(Scenario.env [], Close Scenario.A)] initial
  ∧ is_Some (rooms Scenario.stA !! "4821")
  ∧ createUniqueRoomId (rooms initial) [Scenario.u4821] = Some "4821"
  ∧ rooms initial !! "4821" = None
  ∧ ∃ tr1 e sock tr2 st1 st2 out,
      [(Scenario.env [], Close Scenario.A)] = tr1 ++ (e, Close sock) :: tr2 ∧
      steps Scenario.stA tr1 st1 ∧ onClose e st1 sock = (st2, out) ∧
      is_Some (rooms st1 !! "4821") ∧ rooms st2 !! "4821" = None.
Proof.
  assert (is_Some (rooms Scenario.stA !! "4821")) as Hopen
    by (vm_compute; eauto).
  pose proof (createUniqueRoomId_unused Scenario.stA _ initial
                [Scenario.u4821] Scenario_reissue) as H.
  change (createUniqueRoomId (rooms initial) [Scenario.u4821])
    with (Some "4821") in H.
  destruct H as (Hfresh & _ & _ & Hclosed).
  split_and!; [apply Scenario_reissue|exact Hopen|reflexivity|exact Hfresh|].
  exact (Hclosed Hopen).
Defined.

(** ** Joining a room *)

Lemma roomsGet_Some rs k ms :
  roomsGet rs k = Some ms → ∃ r, k = Some (JStr r) ∧ rs !! r = Some ms.
Proof. destruct k as [[| | |r| |]|]; try done. simpl. eauto. Qed.

(** C5. From a reachable state, a join-room envelope is always answered.
    The answer is the single envelope error "Room does not exist" to the
    sender exactly when no open room carries the requested id, and the
    single envelope error "Room is full" to the sender exactly when that
    room is open with 2 members; either way the tables are left as they
    were. In the remaining case the sender is added to the room's members
    and to the registry, no other room changes, and the sender is sent
    joined{room} followed by the user count of the room. *)
Theorem join_room_outcomes e st sock data :
  reachable st → isKind data "join-room" →
  let requested := roomsGet (rooms st) (payloadField data "room") in
  ∃ st' out,
    onMessage e st sock data = Returned st' out
    ∧ (out = [(sock, EError "Room does not exist")] ↔ requested = None)
    ∧ (out = [(sock, EError "Room is full")]
       ↔ ∃ ms, requested = Some ms ∧ length ms = 2)
    ∧ (requested = None ∨ (∃ ms, requested = Some ms ∧ length ms = 2) →
       st' = st)
    ∧ (∀ ms, requested = Some ms → length ms ≠ 2 →
       ∃ r, payloadField data "room" = Some (JStr r)
            ∧ rooms st' !! r = Some (setAdd sock ms)
            ∧ sock ∈ setAdd sock ms
            ∧ users st' !! sock = Some (mkUser sock r)
            ∧ (∀ r', r' ≠ r → rooms st' !! r' = rooms st !! r')
            ∧ (∀ c, c ≠ sock → users st' !! c = users st !! c)
            ∧ out = (sock, EJoined r) ::
                    map (λ client, (client, EUserCount (length (setAdd sock ms)) 2))
                        (filter (λ client, isOpen e client = true)
                                (setAdd sock ms))).
Proof.
  intros Hreach Hk requested.
  destruct requested as [ms|] eqn:Hreq; subst requested.
  - destruct (roomsGet_Some _ _ _ Hreq) as (r & Hroom & Hms).
    assert (r ≠ "") as Hr by (eapply reachable_room_nonempty; eauto).
    pose proof (inv_size _ (Inv_reachable _ Hreach) _ _ Hms) as Hsz.
    unfold MAX_USERS_PER_ROOM in Hsz.
    destruct (decide (length ms = 2)) as [Hfull|Hfree].
    + exists st, [(sock, EError "Room is full")]. split_and!.
      * eapply onMessage_join_full; eauto. unfold MAX_USERS_PER_ROOM. lia.
      * split; [by intros [=]|done].
      * split; [eauto|done].
      * done.
      * intros ms' [= <-] Hne. done.
    + eexists _, _. split_and!.
      * eapply onMessage_join_ok; eauto. unfold MAX_USERS_PER_ROOM. lia.
      * split; [by intros [=]|done].
      * split; [by intros [=]|]. intros (ms' & [= <-] & Hlen). done.
      * intros [[=]|(ms' & [= <-] & Hlen)]. done.
      * intros ms' [= <-] _. exists r. simpl. split_and!; try done.
        -- apply lookup_insert_eq.
        -- apply elem_of_setAdd. by left.
        -- apply lookup_insert_eq.
        -- intros r' Hr'. by apply lookup_insert_ne.
        -- intros c Hc. by apply lookup_insert_ne.
  - exists st, [(sock, EError "Room does not exist")]. split_and!.
    + apply onMessage_join_missing; auto.
    + done.
    + split; [by intros [=]|]. intros (ms & [=] & _).
    + done.
    + intros ms [=].
Qed.

Lemma join_room_outcomes_witness :
  reachable Scenario.stAB ∧ isKind (Scenario.joinRoom "4821") "join-room"
  ∧ onMessage (Scenario.env []) Scenario.stAB Scenario.C (Scenario.joinRoom "4821")
    = Returned Scenario.stAB [(Scenario.C, EError "Room is full")].
Proof.
  assert (reachable Scenario.stAB) as Hreach
    by (exists Scenario.trAB; apply Scenario_stAB).
  assert (isKind (Scenario.joinRoom "4821") "join-room") as Hk by reflexivity.
  split; [exact Hreach|]. split; [exact Hk|].
  destruct (join_room_outcomes (Scenario.env []) Scenario.stAB Scenario.C
              (Scenario.joinRoom "4821") Hreach Hk)
    as (st' & out & Hrun & _ & Hfull & Hsame & _).
  assert (∃ ms, roomsGet (rooms Scenario.stAB)
                  (payloadField (Scenario.joinRoom "4821") "room") = Some ms
                ∧ length ms = 2) as Hroom
    by (exists [Scenario.A; Scenario.B]; split; reflexivity).
  rewrite Hrun. f_equal.
  - apply Hsame. by right.
  - by apply Hfull.
Defined.

(** C9. A join-room envelope with no payload, with a payload that has no
    room field, or with the empty string as room is answered, in any state
    and whether or not the sender is registered, with the single envelope
    error "Room does not exist" to the sender, and the tables are left as
    they were. *)
Theorem join_room_without_room e st sock data :
  isKind data "join-room" →
  field data "payload" = None
    ∨ payloadField data "room" = None
    ∨ payloadField data "room" = Some (JStr "") →
  onMessage e st sock data = Returned st [(sock, EError "Room does not exist")].
Proof.
  intros Hk Hbad. apply onMessage_join_missing; [done|]. left.
  destruct Hbad as [Hp|[-> | ->]]; [|done..].
  by rewrite (payloadField_absent _ _ Hp).
Qed.

Lemma join_room_without_room_witness :
  isKind (Some (JObj [("type", JStr "join-room")])) "join-room"
  ∧ field (Some (JObj [("type", JStr "join-room")])) "payload" = None
  ∧ onMessage (Scenario.env []) Scenario.stA Scenario.B
      (Some (JObj [("type", JStr "join-room")]))
    = Returned Scenario.stA [(Scenario.B, EError "Room does not exist")].
Proof.
  split; [reflexivity|]. split; [reflexivity|].
  apply (join_room_without_room (Scenario.env []) Scenario.stA Scenario.B
           (Some (JObj [("type", JStr "join-room")]))).
  - reflexivity.
  - left. reflexivity.
Defined.

(** ** Relaying chat messages *)

(** C10. A message envelope with no payload, or whose id or text is missing
    or falsy (the empty string in particular), makes the listener return
    without sending anything to anyone and leaves the tables as they were;
    this holds in every state, so also for a sender assigned to a room. *)
Theorem message_without_id_or_text e st sock data :
  isKind data "message" →
  field data "payload" = None
    ∨ truthy (payloadField data "id") = false
    ∨ truthy (payloadField data "text") = false →
  onMessage e st sock data = Returned st [].
Proof.
  intros Hk Hbad. apply onMessage_message_dropped; [done|].
  destruct Hbad as [Hp|[?|?]]; auto.
  left. by rewrite (payloadField_absent _ _ Hp).
Qed.

Lemma message_without_id_or_text_witness :
  isKind (Scenario.chat "m1" "") "message"
  ∧ truthy (payloadField (Scenario.chat "m1" "") "text") = false
  ∧ onMessage (Scenario.env []) Scenario.stAB Scenario.A (Scenario.chat "m1" "")
    = Returned Scenario.stAB [].
Proof.
  split; [reflexivity|]. split; [reflexivity|].
  apply (message_without_id_or_text (Scenario.env []) Scenario.stAB Scenario.A
           (Scenario.chat "m1" "")).
  - reflexivity.
  - right. right. reflexivity.
Defined.

Lemma filter_isDelivered_messages id text (cs : list WebSocket) :
  List.filter isDelivered (map (λ client, (client, EMessage id text)) cs) = [].
Proof. induction cs as [|c cs IH]; [done|]. simpl. exact IH. Qed.

Lemma elem_of_tagged {A B} (f : A → B) (cs : list A) c b :
  (c, b) ∈ map (λ client, (client, f client)) cs ↔ c ∈ cs ∧ b = f c.
Proof.
  change (map ?g cs) with (g <$> cs). rewrite list_elem_of_fmap. split.
  - intros (x & [= -> ->] & Hx). done.
  - intros [Hc ->]. by exists c.
Qed.

(** C6. From a reachable state, a message envelope with truthy id and text
    (non-empty strings in particular) sent by a connection registered in
    room R is answered as follows: the members of R other than the sender
    whose socket is open receive message{id, message:text}, once each and in
    the order they entered the room, and then the sender receives
    delivered{id}. Nobody outside R receives anything, the sender receives
    nothing but that one acknowledgement, no other delivered envelope is
    sent, and the tables are left as they were. *)
Theorem message_relay e st sock user data :
  reachable st → users st !! sock = Some user →
  isKind data "message" →
  truthy (payloadField data "id") = true →
  truthy (payloadField data "text") = true →
  let id := payloadField data "id" in
  let text := payloadField data "text" in
  ∃ members out,
    rooms st !! room user = Some members ∧ sock ∈ members
    ∧ onMessage e st sock data = Returned st out
    ∧ out = map (λ client, (client, EMessage id text))
                (filter (λ client, client ≠ sock ∧ isOpen e client = true) members)
            ++ [(sock, EDelivered id)]
    ∧ (∀ c, (c, EMessage id text) ∈ out
            ↔ c ∈ members ∧ c ≠ sock ∧ isOpen e c = true)
    ∧ (∀ c env, (c, env) ∈ out → c ∈ members)
    ∧ (∀ env, (sock, env) ∈ out → env = EDelivered id)
    ∧ List.filter isDelivered out = [(sock, EDelivered id)]
    ∧ NoDup (map fst out).
Proof.
  intros Hreach Hu Hk Hid Htext id text.
  pose proof (Inv_reachable _ Hreach) as HI.
  destruct (inv_registered _ HI _ _ Hu) as (members & Hms & Hin).
  pose proof (inv_nodup _ HI _ _ Hms) as Hnd.
  eexists members, _. split; [done|]. split; [done|].
  split; [by apply (onMessage_message _ _ _ _ _ Hu Hms)|].
  split; [done|]. fold id text.
  set (others := filter (λ client, client ≠ sock ∧ isOpen e client = true) members).
  assert (∀ c, c ∈ others ↔ c ∈ members ∧ c ≠ sock ∧ isOpen e c = true) as Hothers.
  { intros c. unfold others. rewrite list_elem_of_filter. tauto. }
  split_and!.
  - intros c. rewrite elem_of_app, list_elem_of_singleton.
    rewrite (elem_of_tagged (λ _, EMessage id text)), Hothers. split.
    + intros [[? _]|[=]]. done.
    + intros ?. by left.
  - intros c env. rewrite elem_of_app, list_elem_of_singleton.
    rewrite (elem_of_tagged (λ _, EMessage id text)), Hothers.
    intros [[(? & _ & _) _]|[= -> _]]; done.
  - intros env. rewrite elem_of_app, list_elem_of_singleton.
    rewrite (elem_of_tagged (λ _, EMessage id text)), Hothers.
    intros [[(_ & ? & _) _]|[= ->]]; done.
  - rewrite List.filter_app, filter_isDelivered_messages. done.
  - rewrite map_app, map_map. simpl. rewrite map_id.
    apply NoDup_app. split_and!.
    + unfold others. by apply NoDup_filter.
    + intros c Hc ->%list_elem_of_singleton. apply Hothers in Hc. tauto.
    + apply NoDup_singleton.
Qed.

Lemma message_relay_witness :
  reachable Scenario.stAB
  ∧ users Scenario.stAB !! Scenario.A = Some (mkUser Scenario.A "4821")
  ∧ isKind (Scenario.chat "m1" "hi") "message"
  ∧ ∃ out,
      onMessage (Scenario.env []) Scenario.stAB Scenario.A (Scenario.chat "m1" "hi")
      = Returned Scenario.stAB out
      ∧ out = [(Scenario.B, EMessage (Some (JStr "m1")) (Some (JStr "hi")));
               (Scenario.A, EDelivered (Some (JStr "m1")))].
Proof.
  assert (reachable Scenario.stAB) as Hreach
    by (exists Scenario.trAB; apply Scenario_stAB).
  assert (users Scenario.stAB !! Scenario.A = Some (mkUser Scenario.A "4821"))
    as Hu by reflexivity.
  assert (isKind (Scenario.chat "m1" "hi") "message") as Hk by reflexivity.
  split_and!; try done.
  destruct (message_relay (Scenario.env []) Scenario.stAB Scenario.A _
              (Scenario.chat "m1" "hi") Hreach Hu Hk eq_refl eq_refl)
    as (members & out & Hms & _ & Hrun & Hout & _).
  exists out. split; [exact Hrun|].
  change (rooms Scenario.stAB !! "4821") with (Some [Scenario.A; Scenario.B]) in Hms.
  injection Hms as <-. rewrite Hout. vm_compute. reflexivity.
Defined.

(** ** Relaying read receipts *)

(** C7, as stated, fails: an id that is present but falsy is dropped. In the
    room of A and B with both sockets open, seen{id:""} from A reaches
    nobody, although its id field is present. *)
Lemma seen_present_empty_id_dropped :
  reachable Scenario.stAB
  ∧ users Scenario.stAB !! Scenario.A = Some (mkUser Scenario.A "4821")
  ∧ rooms Scenario.stAB !! "4821" = Some [Scenario.A; Scenario.B]
  ∧ isKind (Scenario.seen "") "seen"
  ∧ payloadField (Scenario.seen "") "id" = Some (JStr "")
  ∧ isOpen (Scenario.env []) Scenario.B = true
  ∧ onMessage (Scenario.env []) Scenario.stAB Scenario.A (Scenario.seen "")
    = Returned Scenario.stAB []
  ∧ ¬ ∃ st' out,
        onMessage (Scenario.env []) Scenario.stAB Scenario.A (Scenario.seen "")
        = Returned st' out
        ∧ (Scenario.B, ESeen (Some (JStr ""))) ∈ out.
Proof.
  split_and!; try reflexivity.
  - exists Scenario.trAB. apply Scenario_stAB.
  - intros (st' & out & Hrun & Hin).
    change (onMessage (Scenario.env []) Scenario.stAB Scenario.A (Scenario.seen ""))
      with (Returned Scenario.stAB []) in Hrun.
    injection Hrun as <- <-. by apply not_elem_of_nil in Hin.
Qed.

(** C7, amended. From a reachable state, a seen envelope sent by a
    connection registered in room R is always handled without a change to
    the tables, and what is sent depends on its id alone. With a truthy id
    (a non-empty string in particular), seen{id} goes to exactly the members
    of R whose socket is open, once each; the sender is a member of R and so
    receives it when its own socket is open; nobody outside R receives
    anything and nothing else is sent. With an id that is missing or falsy
    (the empty string, false, zero, null), nothing is sent to anybody. *)
Theorem seen_relay e st sock user data :
  reachable st → users st !! sock = Some user →
  isKind data "seen" →
  let id := payloadField data "id" in
  ∃ members out,
    rooms st !! room user = Some members ∧ sock ∈ members
    ∧ onMessage e st sock data = Returned st out
    ∧ (truthy id = false → out = [])
    ∧ (truthy id = true →
       out = map (λ client, (client, ESeen id))
                 (filter (λ client, isOpen e client = true) members)
       ∧ (∀ c, (c, ESeen id) ∈ out ↔ c ∈ members ∧ isOpen e c = true)
       ∧ (isOpen e sock = true → (sock, ESeen id) ∈ out)
       ∧ (∀ c env, (c, env) ∈ out → c ∈ members ∧ env = ESeen id)
       ∧ NoDup (map fst out)).
Proof.
  intros Hreach Hu Hk id.
  pose proof (Inv_reachable _ Hreach) as HI.
  destruct (inv_registered _ HI _ _ Hu) as (members & Hms & Hin).
  pose proof (inv_nodup _ HI _ _ Hms) as Hnd.
  exists members. destruct (truthy id) eqn:Hid.
  - eexists. split; [done|]. split; [done|].
    split; [by apply (onMessage_seen _ _ _ _ _ Hu Hms)|].
    split; [done|]. intros _. split; [done|]. fold id.
    assert (∀ c env,
              (c, env) ∈ map (λ client, (client, ESeen id))
                             (filter (λ client, isOpen e client = true) members)
              ↔ (c ∈ members ∧ isOpen e c = true) ∧ env = ESeen id) as Hout.
    { intros c env. rewrite (elem_of_tagged (λ _, ESeen id)), list_elem_of_filter.
      tauto. }
    split_and!.
    + intros c. rewrite Hout. tauto.
    + intros Hopen. apply Hout. tauto.
    + intros c env. rewrite Hout. tauto.
    + rewrite map_map. simpl. rewrite map_id. by apply NoDup_filter.
  - exists []. split; [done|]. split; [done|].
    split; [by apply onMessage_seen_dropped|].
    split; [done|]. intros [=].
Qed.

Lemma seen_relay_witness :
  reachable Scenario.stAB
  ∧ users Scenario.stAB !! Scenario.A = Some (mkUser Scenario.A "4821")
  ∧ isKind (Scenario.seen "m1") "seen"
  ∧ ∃ out,
      onMessage (Scenario.env []) Scenario.stAB Scenario.A (Scenario.seen "m1")
      = Returned Scenario.stAB out
      ∧ out = [(Scenario.A, ESeen (Some (JStr "m1")));
               (Scenario.B, ESeen (Some (JStr "m1")))].
Proof.
  assert (reachable Scenario.stAB) as Hreach
    by (exists Scenario.trAB; apply Scenario_stAB).
  assert (users Scenario.stAB !! Scenario.A = Some (mkUser Scenario.A "4821"))
    as Hu by reflexivity.
  assert (isKind (Scenario.seen "m1") "seen") as Hk by reflexivity.
  split_and!; try done.
  destruct (seen_relay (Scenario.env []) Scenario.stAB Scenario.A _
              (Scenario.seen "m1") Hreach Hu Hk)
    as (members & out & Hms & _ & Hrun & _ & Hsent).
  destruct (Hsent eq_refl) as (Hout & _).
  exists out. split; [exact Hrun|].
  change (rooms Scenario.stAB !! "4821") with (Some [Scenario.A; Scenario.B]) in Hms.
  injection Hms as <-. rewrite Hout. vm_compute. reflexivity.
Defined.

(** ** Disconnection *)

(** C8, as stated, fails: the user count goes only to remaining members
    whose socket is open. When A closes while B, still a member of the room,
    has a socket that is no longer open, the room persists with B and the
    close listener sends nothing to B. *)
Lemma close_skips_member_not_open :
  reachable Scenario.stAB
  ∧ users Scenario.stAB !! Scenario.A = Some (mkUser Scenario.A "4821")
  ∧ rooms Scenario.stAB !! "4821" = Some [Scenario.A; Scenario.B]
  ∧ isOpen (Scenario.envClosing Scenario.B) Scenario.B = false
  ∧ rooms (onClose (Scenario.envClosing Scenario.B) Scenario.stAB Scenario.A).1
      !! "4821" = Some [Scenario.B]
  ∧ (onClose (Scenario.envClosing Scenario.B) Scenario.stAB Scenario.A).2 = []
  ∧ (Scenario.B, EUserCount 1 2)
      ∉ (onClose (Scenario.envClosing Scenario.B) Scenario.stAB Scenario.A).2.
Proof.
  split_and!; try reflexivity.
  - exists Scenario.trAB. apply Scenario_stAB.
  - vm_compute. apply not_elem_of_nil.
Qed.

(** C8, amended. From a reachable state, the close of a connection with a
    registry entry finds its registered room open with the connection among
    the members and removes it from them; no other room changes. If members
    remain, the room persists with them and user-count{count,max} with their
    number and max 2 is sent to each remaining member whose socket is open,
    and to nobody else; if none remains, the room is deleted and nothing is
    sent. The registry entry is removed in both cases and no other entry
    changes. The close of a connection with no registry entry changes
    neither table and sends nothing. *)
Theorem close_cleanup e st sock :
  reachable st →
  match users st !! sock with
  | None => onClose e st sock = (st, [])
  | Some user =>
      ∃ members st' out,
        rooms st !! room user = Some members ∧ sock ∈ members
        ∧ onClose e st sock = (st', out)
        ∧ users st' = delete sock (users st)
        ∧ (∀ r, r ≠ room user → rooms st' !! r = rooms st !! r)
        ∧ (∀ c, c ∈ setDelete sock members ↔ c ∈ members ∧ c ≠ sock)
        ∧ (setDelete sock members ≠ [] →
           rooms st' !! room user = Some (setDelete sock members)
           ∧ ∀ c env, (c, env) ∈ out
                      ↔ c ∈ setDelete sock members ∧ isOpen e c = true
                        ∧ env = EUserCount (length (setDelete sock members)) 2)
        ∧ (setDelete sock members = [] →
           rooms st' !! room user = None ∧ out = [])
  end.
Proof.
  intros Hreach. destruct (users st !! sock) as [user|] eqn:Hu;
    [|by apply onClose_unregistered].
  destruct (inv_registered _ (Inv_reachable _ Hreach) _ _ Hu)
    as (members & Hms & Hin).
  exists members.
  destruct (decide (setDelete sock members = [])) as [Hempty|Hrest].
  - rewrite (onClose_last _ _ _ _ _ Hu Hms Hempty).
    eexists _, _. split_and!; try done; simpl.
    + intros r Hr. by apply lookup_delete_ne.
    + intros c. apply elem_of_setDelete.
    + split; [apply lookup_delete_eq|done].
  - rewrite (onClose_remaining _ _ _ _ _ Hu Hms Hrest).
    eexists _, _. split_and!; try done; simpl.
    + intros r Hr. by apply lookup_insert_ne.
    + intros c. apply elem_of_setDelete.
    + intros _. split; [apply lookup_insert_eq|].
      intros c env.
      rewrite (elem_of_tagged
                 (λ _, EUserCount (length (setDelete sock members))
                                  MAX_USERS_PER_ROOM)).
      rewrite list_elem_of_filter. unfold MAX_USERS_PER_ROOM. tauto.
Qed.

Lemma close_cleanup_witness :
  reachable Scenario.stAB
  ∧ users Scenario.stAB !! Scenario.B = Some (mkUser Scenario.B "4821")
  ∧ ∃ st' out,
      onClose (Scenario.env []) Scenario.stAB Scenario.B = (st', out)
      ∧ users st' = delete Scenario.B (users Scenario.stAB)
      ∧ rooms st' !! "4821" = Some [Scenario.A]
      ∧ ∀ c env, (c, env) ∈ out
                 ↔ c ∈ [Scenario.A] ∧ isOpen (Scenario.env []) c = true
                   ∧ env = EUserCount 1 2.
Proof.
  assert (reachable Scenario.stAB) as Hreach
    by (exists Scenario.trAB; apply Scenario_stAB).
  split; [exact Hreach|]. split; [reflexivity|].
  pose proof (close_cleanup (Scenario.env []) Scenario.stAB Scenario.B Hreach) as H.
  change (users Scenario.stAB !! Scenario.B)
    with (Some (mkUser Scenario.B "4821")) in H.
  destruct H as (members & st' & out & Hms & _ & Hrun & Husers & _ & _ & Hrest & _).
  change (rooms Scenario.stAB !! room (mkUser Scenario.B "4821"))
    with (Some [Scenario.A; Scenario.B]) in Hms.
  injection Hms as <-.
  change (setDelete Scenario.B [Scenario.A; Scenario.B]) with [Scenario.A] in Hrest.
  destruct Hrest as [Hroom Hout]; [done|].
  exists st', out. split_and!; done.
Defined.

(** ** Where the listener departs from the documented protocol *)

(** C1 fails on the code. The create-room branch returns at once for a
    registered sender, the join-room branch has no such test: A, registered
    in room 4821, sends join-room for B's room 1000 and is added to it. A is
    then a member of both rooms while the registry records 1000 only, and
    the join is answered, not dropped. *)
Theorem join_room_from_assigned_connection :
  steps initial Scenario.trTwoRooms Scenario.stTwoRooms
  ∧ users Scenario.stTwoRooms !! Scenario.A = Some (mkUser Scenario.A "4821")
  ∧ onMessage (Scenario.env []) Scenario.stTwoRooms Scenario.A Scenario.createRoom
    = Returned Scenario.stTwoRooms []
  ∧ ∃ st',
      onMessage (Scenario.env []) Scenario.stTwoRooms Scenario.A
        (Scenario.joinRoom "1000")
      = Returned st' [(Scenario.A, EJoined "1000");
                      (Scenario.B, EUserCount 2 2);
                      (Scenario.A, EUserCount 2 2)]
      ∧ rooms st' !! "4821" = Some [Scenario.A]
      ∧ rooms st' !! "1000" = Some [Scenario.B; Scenario.A]
      ∧ users st' !! Scenario.A = Some (mkUser Scenario.A "1000").
Proof.
  split_and!.
  - apply exec_steps. vm_compute. reflexivity.
  - reflexivity.
  - vm_compute. reflexivity.
  - eexists. split_and!; [vm_compute; reflexivity|reflexivity..].
Qed.

(** The only inputs on which the message listener raises. *)
Lemma onMessage_throws_only e st sock data st' out :
  onMessage e st sock data = Threw st' out →
  st' = st ∧ out = [] ∧
  (data = Some JNull
   ∨ (isKind data "typing" ∧ is_Some (users st !! sock)
      ∧ (field data "payload" = None ∨ field data "payload" = Some JNull))).
Proof.
  destruct data as [[|b|q|s|items|fields]|];
    try (unfold onMessage; simpl; by repeat case_match).
  - intros [= <- <-]. auto.
  - unfold onMessage, isKind, field. simpl.
    destruct (strictEq (assoc "type" fields) "create-room") eqn:Hc.
    { repeat (case_match; simplify_eq/=); done. }
    destruct (strictEq (assoc "type" fields) "join-room") eqn:Hj.
    { rewrite orEmpty_getProp. simpl.
      destruct (truthy _) eqn:Ht; [|done]. simpl.
      destruct (roomsHas _ _) eqn:Hh; [|done]. simpl.
      apply roomsHas_true in Hh as (r & ms & -> & Hms). simpl. rewrite Hms.
      by destruct ms as [|? [|? ?]]. }
    destruct (users st !! sock) as [user|]; [|done].
    destruct (rooms st !! room user) as [roomSockets|]; [|done].
    destruct (strictEq (assoc "type" fields) "typing") eqn:Hty.
    { destruct (assoc "payload" fields) as [[| | | | |]|]; simpl;
        try done; intros [= <- <-]; eauto 10. }
    rewrite !orEmpty_getProp. simpl.
    repeat (case_match; simplify_eq/=); done.
Qed.

(** C3 fails on the code. The message and seen branches read the payload
    through [message.payload || {}], the typing branch reads
    [message.payload.typing] unguarded: a typing envelope without payload
    from a connection in a room raises a TypeError inside the listener
    instead of completing. The same happens, for any sender, when the frame
    is the JSON text null, at the first read of [message.type]. *)
Theorem typing_without_payload_throws :
  users Scenario.stA !! Scenario.A = Some (mkUser Scenario.A "4821")
  ∧ isOpen (Scenario.env []) Scenario.A = true
  ∧ onMessage (Scenario.env []) Scenario.stA Scenario.A
      (Some (JObj [("type", JStr "typing")]))
    = Threw Scenario.stA []
  ∧ onMessage (Scenario.env []) Scenario.stA Scenario.A (Some JNull)
    = Threw Scenario.stA [].
Proof. split_and!; vm_compute; reflexivity. Qed.

(** * Further properties of the server *)

(** ** Every normal return of the message listener is one of nine answers *)

Lemma onMessage_answer e st sock data st' out :
  onMessage e st sock data = Returned st' out →
  answer e st sock data st' out.
Proof.
  destruct data as [[|b|q|s|items|fields]|].
  7: { intros [= <- <-]. by constructor. }
  1: done.
  1-4: unfold onMessage; simpl; intros H;
       repeat (case_match; simplify_eq/=); by constructor.
  assert (∀ k, strictEq (assoc "type" fields) k = true →
               isKind (Some (JObj fields)) k) as Hkind by done.
  unfold onMessage. simpl.
  destruct (strictEq (assoc "type" fields) "create-room") eqn:Hc.
  { apply Hkind in Hc. case_decide as Hu.
    - intros [= <- <-]. by constructor.
    - destruct (createUniqueRoomId _ _) as [roomId|] eqn:Hid; [|done].
      intros [= <- <-]. apply eq_None_not_Some in Hu.
      unfold broadcastUserCount. simpl. rewrite lookup_insert_eq.
      by apply answer_created. }
  destruct (strictEq (assoc "type" fields) "join-room") eqn:Hj.
  { apply Hkind in Hj. rewrite orEmpty_getProp. simpl.
    rewrite <- !payloadField_obj.
    destruct (truthy _) eqn:Ht; simpl.
    2: { intros [= <- <-]. apply answer_no_room; auto. }
    destruct (roomsHas _ _) eqn:Hh; simpl.
    2: { intros [= <- <-]. apply answer_no_room; [done|].
         left. by apply roomsHas_false. }
    apply roomsHas_true in Hh as (r & ms & Hr & Hms).
    rewrite Hr. unfold roomsGet. rewrite Hms. cbv beta iota.
    change (match length ms with S (S _) => true | _ => false end)
      with (MAX_USERS_PER_ROOM <=? length ms).
    destruct (MAX_USERS_PER_ROOM <=? length ms) eqn:Hfull; intros [= <- <-].
    - eapply answer_full; eauto. by apply Nat.leb_le.
    - unfold broadcastUserCount. simpl. rewrite lookup_insert_eq.
      apply answer_joined; auto. by apply Nat.leb_gt. }
  destruct (users st !! sock) as [user|] eqn:Hu.
  2: { intros [= <- <-]. by constructor. }
  destruct (rooms st !! room user) as [roomSockets|] eqn:Hms.
  2: { intros [= <- <-]. by constructor. }
  destruct (strictEq (assoc "type" fields) "typing") eqn:Hty.
  { apply Hkind in Hty.
    pose proof (answer_typing e st sock _ user roomSockets Hty Hu Hms) as A.
    unfold field in A. simpl in A.
    destruct (assoc "payload" fields) as [[| | | | |pf]|]; simpl; try done;
      by intros [= <- <-]. }
  destruct (strictEq (assoc "type" fields) "message") eqn:Hm.
  { apply Hkind in Hm. rewrite !orEmpty_getProp. simpl.
    rewrite <- !payloadField_obj.
    destruct (truthy (payloadField _ "id")) eqn:Hid; simpl.
    2: { intros [= <- <-]. by constructor. }
    destruct (truthy (payloadField _ "text")) eqn:Htext; simpl.
    2: { intros [= <- <-]. by constructor. }
    intros [= <- <-]. by eapply answer_message. }
  destruct (strictEq (assoc "type" fields) "seen") eqn:Hs.
  { apply Hkind in Hs. rewrite !orEmpty_getProp. simpl.
    rewrite <- !payloadField_obj.
    destruct (truthy (payloadField _ "id")) eqn:Hid; simpl.
    2: { intros [= <- <-]. by constructor. }
    intros [= <- <-]. by eapply answer_seen. }
  intros [= <- <-]. by constructor.
Qed.

(** ** Creating a room *)

(** X5. A create-room envelope, whatever else it carries, is handled by the
    sender's registry entry alone. With an entry the envelope is dropped:
    nothing is sent and nothing changes. Without one, and with an identifier
    found, the sender is registered in a new room of which it is the only
    member, no other registry entry and no other room changes, and the only
    envelopes sent are room-created{room} to the sender followed, if its
    socket is open, by user-count{1,2} to the sender. *)
Theorem create_room_effects e st sock data :
  isKind data "create-room" →
  match users st !! sock with
  | Some _ => onMessage e st sock data = Returned st []
  | None =>
      ∀ roomId, createUniqueRoomId (rooms st) (random e) = Some roomId →
      ∃ st',
        onMessage e st sock data
        = Returned st' ((sock, ERoomCreated roomId) ::
                        if isOpen e sock then [(sock, EUserCount 1 2)] else [])
        ∧ users st' !! sock = Some (mkUser sock roomId)
        ∧ rooms st !! roomId = None
        ∧ rooms st' !! roomId = Some [sock]
        ∧ (∀ c, c ≠ sock → users st' !! c = users st !! c)
        ∧ (∀ r, r ≠ roomId → rooms st' !! r = rooms st !! r)
  end.
Proof.
  intros Hk. destruct (users st !! sock) as [user|] eqn:Hu.
  - apply onMessage_create_assigned; [done|]. by rewrite Hu.
  - intros roomId Hid. exists (created st sock roomId).
    rewrite (onMessage_create _ _ _ _ _ Hk Hu Hid). split_and!.
    + f_equal. f_equal. rewrite filter_cons, filter_nil.
      destruct (isOpen e sock); by rewrite ?decide_True, ?decide_False by done.
    + apply lookup_insert_eq.
    + by eapply createUniqueRoomId_fresh.
    + apply lookup_insert_eq.
    + intros c Hc. by apply lookup_insert_ne.
    + intros r Hr. by apply lookup_insert_ne.
Qed.

Lemma create_room_effects_witness :
  isKind Scenario.createRoom "create-room"
  ∧ ∃ st',
      onMessage (Scenario.env [Scenario.u4821; 0%Q]) Scenario.stA Scenario.B
        Scenario.createRoom
      = Returned st' [(Scenario.B, ERoomCreated "1000");
                      (Scenario.B, EUserCount 1 2)]
      ∧ users st' !! Scenario.B = Some (mkUser Scenario.B "1000").
Proof.
  assert (isKind Scenario.createRoom "create-room") as Hk by reflexivity.
  split; [exact Hk|].
  pose proof (create_room_effects (Scenario.env [Scenario.u4821; 0%Q])
                Scenario.stA Scenario.B Scenario.createRoom Hk) as H.
  change (users Scenario.stA !! Scenario.B) with (@None User) in H.
  destruct (H "1000" eq_refl) as (st' & Hrun & Hreg & _).
  exists st'. split; [exact Hrun|exact Hreg].
Defined.

(** ** Typing indicators *)

Lemma elem_of_const_tagged {A B} (b0 : B) (cs : list A) c b :
  (c, b) ∈ map (λ client, (client, b0)) cs ↔ c ∈ cs ∧ b = b0.
Proof. apply (elem_of_tagged (λ _, b0)). Qed.

Lemma getProp_present v k :
  v ≠ None → v ≠ Some JNull → getProp v k = Normal (field v k).
Proof. unfold field. by destruct v as [[| | | | |]|]. Qed.

(** X6. From a reachable state, a typing envelope whose payload is neither
    missing nor null, sent by a connection registered in room R, is relayed
    as typing{typing} with the payload's typing field as it came (whatever
    its type; left out when absent) to the members of R other than the
    sender whose socket is open, once each. The sender and everybody
    outside R receive nothing, and the tables are left as they were. *)
Theorem typing_relay e st sock user data :
  reachable st → users st !! sock = Some user →
  isKind data "typing" →
  field data "payload" ≠ None → field data "payload" ≠ Some JNull →
  let typing := field (field data "payload") "typing" in
  ∃ members out,
    rooms st !! room user = Some members ∧ sock ∈ members
    ∧ onMessage e st sock data = Returned st out
    ∧ out = map (λ client, (client, ETyping typing))
                (filter (λ client, client ≠ sock ∧ isOpen e client = true) members)
    ∧ (∀ c env, (c, env) ∈ out
                ↔ (c ∈ members ∧ c ≠ sock ∧ isOpen e c = true)
                  ∧ env = ETyping typing)
    ∧ NoDup (map fst out).
Proof.
  intros Hreach Hu Hk Hp1 Hp2 typing. subst typing.
  pose proof (Inv_reachable _ Hreach) as HI.
  destruct (inv_registered _ HI _ _ Hu) as (members & Hms & Hin).
  pose proof (inv_nodup _ HI _ _ Hms) as Hnd.
  eexists members, _. split; [done|]. split; [done|].
  split.
  { pose proof Hk as (fields & -> & Hty)%isKind_inv.
    unfold onMessage. simpl. rewrite Hty. simpl. rewrite Hu, Hms.
    change (assoc "payload" fields) with (field (Some (JObj fields)) "payload").
    rewrite (getProp_present _ _ Hp1 Hp2). done. }
  split; [done|]. split.
  - intros c env. rewrite elem_of_const_tagged, list_elem_of_filter. tauto.
  - rewrite map_map. simpl. rewrite map_id. by apply NoDup_filter.
Qed.

Lemma typing_relay_witness :
  reachable Scenario.stAB
  ∧ users Scenario.stAB !! Scenario.A = Some (mkUser Scenario.A "4821")
  ∧ isKind (typingEnvelope true) "typing"
  ∧ ∃ out,
      onMessage (Scenario.env []) Scenario.stAB Scenario.A (typingEnvelope true)
      = Returned Scenario.stAB out
      ∧ out = [(Scenario.B, ETyping (Some (JBool true)))].
Proof.
  assert (reachable Scenario.stAB) as Hreach
    by (exists Scenario.trAB; apply Scenario_stAB).
  assert (users Scenario.stAB !! Scenario.A = Some (mkUser Scenario.A "4821"))
    as Hu by reflexivity.
  assert (isKind (typingEnvelope true) "typing") as Hk by reflexivity.
  split_and!; try done.
  destruct (typing_relay (Scenario.env []) Scenario.stAB Scenario.A _
              (typingEnvelope true) Hreach Hu Hk)
    as (members & out & Hms & _ & Hrun & Hout & _); [done..|].
  exists out. split; [exact Hrun|].
  change (rooms Scenario.stAB !! "4821") with (Some [Scenario.A; Scenario.B]) in Hms.
  injection Hms as <-. rewrite Hout. vm_compute. reflexivity.
Defined.

(** ** Envelopes that are ignored *)

(** X7. A parsed frame other than null whose type is neither create-room nor
    join-room is ignored, with nothing sent and nothing changed, when the
    sender has no registry entry (also a typing envelope without payload,
    which raises for a registered sender), and from any sender when its
    type is none of typing, message and seen. *)
Theorem ignored_envelopes e st sock data :
  data ≠ None → data ≠ Some JNull →
  ¬ isKind data "create-room" → ¬ isKind data "join-room" →
  users st !! sock = None
    ∨ (¬ isKind data "typing" ∧ ¬ isKind data "message" ∧ ¬ isKind data "seen") →
  onMessage e st sock data = Returned st [].
Proof.
  unfold isKind. intros Hi Hn Hc Hj Hwhy.
  apply not_true_is_false in Hc, Hj.
  assert (getProp data "type" = Normal (field data "type")) as Hty
    by (by apply getProp_present).
  destruct data as [message|]; [|done].
  unfold onMessage. rewrite Hty. simpl. rewrite Hc, Hj.
  destruct Hwhy as [->|(Ht & Hm & Hs)]; [done|].
  apply not_true_is_false in Ht, Hm, Hs. rewrite Ht, Hm, Hs.
  by repeat case_match.
Qed.

Lemma ignored_envelopes_witness :
  ¬ isKind (Some (JObj [("type", JStr "typing")])) "create-room"
  ∧ users Scenario.stA !! Scenario.B = None
  ∧ onMessage (Scenario.env []) Scenario.stA Scenario.B
      (Some (JObj [("type", JStr "typing")]))
    = Returned Scenario.stA [].
Proof.
  assert (¬ isKind (Some (JObj [("type", JStr "typing")])) "create-room") as Hc
    by (by intros [=]).
  split; [exact Hc|]. split; [reflexivity|].
  apply (ignored_envelopes (Scenario.env []) Scenario.stA Scenario.B
           (Some (JObj [("type", JStr "typing")]))); try done.
  by left.
Defined.

(** ** Who is sent what *)

(** Take apart the membership [Hin] of an envelope in an answer. *)
Ltac in_sent Hin :=
  repeat first
    [ rewrite elem_of_app in Hin | rewrite elem_of_cons in Hin
    | rewrite elem_of_const_tagged in Hin | rewrite list_elem_of_filter in Hin
    | rewrite elem_of_nil in Hin ];
  destruct_or?; destruct_and?; simplify_eq;
  repeat match goal with
         | H : _ ∈ [_] |- _ => apply list_elem_of_singleton in H
         | H : _ ∨ False |- _ => destruct H as [H|[]]
         end;
  simplify_eq.

(** X8. Neither listener sends to a socket that is not open, the sender of
    the handled frame apart: every envelope the message listener sends goes
    to the sender or to an open socket, and every envelope the close
    listener sends goes to an open socket other than the closed one. *)
Theorem sends_reach_open_sockets e st ev st' out c env :
  step e st ev = Returned st' out → (c, env) ∈ out →
  match ev with
  | Message sock _ => c = sock ∨ isOpen e c = true
  | Close sock => c ≠ sock ∧ isOpen e c = true
  end.
Proof.
  destruct ev as [sock data|sock]; simpl.
  - intros Hrun%onMessage_answer Hin.
    destruct Hrun; in_sent Hin; auto.
  - destruct (onClose e st sock) as [st1 out1] eqn:Hcl. intros [= <- <-].
    revert Hcl.
    destruct (users st !! sock) as [user|] eqn:Hu;
      [|rewrite onClose_unregistered by done; intros [= <- <-];
        by rewrite elem_of_nil].
    destruct (rooms st !! room user) as [ms|] eqn:Hms;
      [|rewrite (onClose_roomless _ _ _ _ Hu Hms); intros [= <- <-];
        by rewrite elem_of_nil].
    destruct (decide (setDelete sock ms = [])) as [Hempty|Hrest].
    + rewrite (onClose_last _ _ _ _ _ Hu Hms Hempty). intros [= <- <-].
      by rewrite elem_of_nil.
    + rewrite (onClose_remaining _ _ _ _ _ Hu Hms Hrest). intros [= <- <-].
      rewrite elem_of_const_tagged, list_elem_of_filter, elem_of_setDelete.
      tauto.
Qed.

Lemma sends_reach_open_sockets_witness :
  step (Scenario.env []) Scenario.stAB (Close Scenario.B)
  = Returned Scenario.stA [(Scenario.A, EUserCount 1 2)]
  ∧ Scenario.A ≠ Scenario.B ∧ isOpen (Scenario.env []) Scenario.A = true.
Proof.
  assert (step (Scenario.env []) Scenario.stAB (Close Scenario.B)
          = Returned Scenario.stA [(Scenario.A, EUserCount 1 2)]) as Hrun
    by (vm_compute; reflexivity).
  split; [exact Hrun|].
  exact (sends_reach_open_sockets _ _ _ _ _ Scenario.A (EUserCount 1 2) Hrun
           (list_elem_of_here _ _)).
Defined.

(** X9. An error envelope is the whole answer of the run that sends it: it
    goes to the sender alone, nothing else is sent to anybody and the
    tables are left as they were. Its text is "Invalid JSON format" exactly
    for an unparseable frame, and otherwise "Room does not exist" or "Room is
    full", in answer to a join-room envelope. *)
Theorem error_answers e st sock data st' out c message :
  onMessage e st sock data = Returned st' out →
  (c, EError message) ∈ out →
  c = sock ∧ out = [(sock, EError message)] ∧ st' = st
  ∧ (message = "Invalid JSON format" ↔ data = None)
  ∧ (message = "Invalid JSON format"
     ∨ (isKind data "join-room"
        ∧ (message = "Room does not exist" ∨ message = "Room is full"))).
Proof.
  intros Hrun%onMessage_answer Hin.
  destruct Hrun as [Hd|Hd| |Hk ?|? ? Hk|? ? Hk| | |]; in_sent Hin.
  1: by split_and!; auto.
  all: pose proof Hk as (? & -> & _)%isKind_inv; split_and!; auto; by split.
Qed.

Lemma error_answers_witness :
  onMessage (Scenario.env []) Scenario.stAB Scenario.C (Scenario.joinRoom "4821")
  = Returned Scenario.stAB [(Scenario.C, EError "Room is full")]
  ∧ (Scenario.C, EError "Room is full") ∈ [(Scenario.C, EError "Room is full")]
  ∧ isKind (Scenario.joinRoom "4821") "join-room".
Proof.
  assert (onMessage (Scenario.env []) Scenario.stAB Scenario.C
            (Scenario.joinRoom "4821")
          = Returned Scenario.stAB [(Scenario.C, EError "Room is full")]) as Hrun
    by (vm_compute; reflexivity).
  assert ((Scenario.C, EError "Room is full")
            ∈ [(Scenario.C, EError "Room is full")]) as Hin
    by apply list_elem_of_here.
  split; [exact Hrun|]. split; [exact Hin|].
  destruct (error_answers _ _ _ _ _ _ _ _ Hrun Hin) as (_ & _ & _ & _ & [[=]|[Hk _]]).
  exact Hk.
Defined.

(** ** What the message listener leaves alone *)

(** X10. A run of the message listener touches no registry entry but the
    sender's, closes no room and removes no member from any room; it
    changes the tables at all only for a create-room or a join-room
    envelope. *)
Theorem onMessage_frame e st sock data st' out :
  onMessage e st sock data = Returned st' out →
  (∀ c, c ≠ sock → users st' !! c = users st !! c)
  ∧ (∀ r ms, rooms st !! r = Some ms →
             ∃ ms', rooms st' !! r = Some ms' ∧ ∀ c, c ∈ ms → c ∈ ms')
  ∧ (st' ≠ st → isKind data "create-room" ∨ isKind data "join-room").
Proof.
  intros Hrun%onMessage_answer.
  destruct Hrun as [| |roomId Hk Hu Hid| | |r roomSockets Hk Hroom Hms Hlt| | |];
    try (split_and!; [done|by eauto|done]).
  - pose proof (createUniqueRoomId_fresh _ _ _ Hid) as Hfresh.
    split_and!; simpl; [|  |by auto].
    + intros c Hc. by apply lookup_insert_ne.
    + intros r ms Hr. exists ms. split; [|done].
      rewrite lookup_insert_ne; [done|]. intros ->. congruence.
  - split_and!; simpl; [|  |by auto].
    + intros c Hc. by apply lookup_insert_ne.
    + intros r' ms Hr'. rewrite lookup_insert. case_decide as Heq.
      * subst r'. rewrite Hms in Hr'. injection Hr' as <-.
        eexists; split; [done|]. intros c Hc. apply elem_of_setAdd. auto.
      * by exists ms.
Qed.

Lemma onMessage_frame_witness :
  onMessage (Scenario.env []) Scenario.stA Scenario.B (Scenario.joinRoom "4821")
  = Returned Scenario.stAB [(Scenario.B, EJoined "4821");
                            (Scenario.A, EUserCount 2 2);
                            (Scenario.B, EUserCount 2 2)]
  ∧ ∀ c, c ≠ Scenario.B → users Scenario.stAB !! c = users Scenario.stA !! c.
Proof.
  assert (onMessage (Scenario.env []) Scenario.stA Scenario.B
            (Scenario.joinRoom "4821")
          = Returned Scenario.stAB [(Scenario.B, EJoined "4821");
                                    (Scenario.A, EUserCount 2 2);
                                    (Scenario.B, EUserCount 2 2)]) as Hrun
    by (vm_compute; reflexivity).
  split; [exact Hrun|].
  exact (proj1 (onMessage_frame _ _ _ _ _ _ Hrun)).
Defined.

(** ** The registry and the rooms *)

(** X11. In every reachable state, a registry entry is filed under the
    socket it records, the room it names is open, and the connection is
    among that room's members. *)
Theorem registered_connection_is_member st c user :
  reachable st → users st !! c = Some user →
  socket user = c
  ∧ ∃ members, rooms st !! room user = Some members ∧ c ∈ members.
Proof.
  intros HI%Inv_reachable Hu. split.
  - by eapply inv_socket.
  - by eapply inv_registered.
Qed.

Lemma registered_connection_is_member_witness :
  reachable Scenario.stAB
  ∧ users Scenario.stAB !! Scenario.B = Some (mkUser Scenario.B "4821")
  ∧ ∃ members, rooms Scenario.stAB !! "4821" = Some members
               ∧ Scenario.B ∈ members.
Proof.
  assert (reachable Scenario.stAB) as Hreach
    by (exists Scenario.trAB; apply Scenario_stAB).
  split; [exact Hreach|]. split; [reflexivity|].
  exact (proj2 (registered_connection_is_member Scenario.stAB Scenario.B
                  (mkUser Scenario.B "4821") Hreach eq_refl)).
Defined.

(** X12. Every user-count envelope sent by a listener run from a reachable
    state goes to an open-socket member of a room that is open after the
    run, and carries that room's number of members after the run, which is
    1 or 2, with max 2. *)
Theorem user_count_is_room_size e st ev st' out c count max :
  reachable st → step e st ev = Returned st' out →
  (c, EUserCount count max) ∈ out →
  max = 2 ∧ 1 ≤ count ≤ 2 ∧ isOpen e c = true
  ∧ ∃ r members, rooms st' !! r = Some members ∧ c ∈ members
                 ∧ count = length members.
Proof.
  intros Hreach Hstep Hin.
  assert (reachable st') as HI'%Inv_reachable
    by (eapply reachable_steps; [done|]; econstructor; [done|constructor]).
  cut (isOpen e c = true
       ∧ ∃ r members, rooms st' !! r = Some members ∧ c ∈ members
                      ∧ count = length members ∧ max = 2).
  { intros (Hopen & r & members & Hr & Hc & -> & ->).
    pose proof (inv_size _ HI' _ _ Hr) as Hsz. unfold MAX_USERS_PER_ROOM in Hsz.
    split_and!; try done; try lia. eauto. }
  clear Hreach HI'. destruct ev as [sock data|sock]; simpl in Hstep.
  - apply onMessage_answer in Hstep.
    destruct Hstep; in_sent Hin.
    + split; [done|]. eexists _, _. simpl. rewrite lookup_insert_eq.
      split_and!; [done|by apply list_elem_of_singleton|done..].
    + split; [done|]. eexists _, _. simpl. rewrite lookup_insert_eq. done.
  - destruct (onClose e st sock) as [st1 out1] eqn:Hcl. simplify_eq.
    revert Hcl.
    destruct (users st !! sock) as [user|] eqn:Hu;
      [|rewrite onClose_unregistered by done; intros [= <- <-];
        by apply elem_of_nil in Hin].
    destruct (rooms st !! room user) as [ms|] eqn:Hms;
      [|rewrite (onClose_roomless _ _ _ _ Hu Hms); intros [= <- <-];
        by apply elem_of_nil in Hin].
    destruct (decide (setDelete sock ms = [])) as [Hempty|Hrest].
    + rewrite (onClose_last _ _ _ _ _ Hu Hms Hempty). intros [= <- <-].
      by apply elem_of_nil in Hin.
    + rewrite (onClose_remaining _ _ _ _ _ Hu Hms Hrest). intros [= <- <-].
      apply elem_of_const_tagged in Hin as [[Hc Hopen]%list_elem_of_filter [= -> ->]].
      split; [done|]. eexists _, _. simpl. rewrite lookup_insert_eq. done.
Qed.

Lemma user_count_is_room_size_witness :
  reachable Scenario.stAB
  ∧ step (Scenario.env []) Scenario.stAB (Close Scenario.B)
    = Returned Scenario.stA [(Scenario.A, EUserCount 1 2)]
  ∧ ∃ r members, rooms Scenario.stA !! r = Some members ∧ Scenario.A ∈ members
                 ∧ 1 = length members.
Proof.
  assert (reachable Scenario.stAB) as Hreach
    by (exists Scenario.trAB; apply Scenario_stAB).
  assert (step (Scenario.env []) Scenario.stAB (Close Scenario.B)
          = Returned Scenario.stA [(Scenario.A, EUserCount 1 2)]) as Hrun
    by (vm_compute; reflexivity).
  split; [exact Hreach|]. split; [exact Hrun|].
  destruct (user_count_is_room_size _ _ _ _ _ Scenario.A 1 2 Hreach Hrun
              (list_elem_of_here _ _)) as (_ & _ & _ & H).
  exact H.
Defined.

(** ** Closing, and closing again *)

Lemma Server_eta st : {| users := users st; rooms := rooms st |} = st.
Proof. by destruct st. Qed.

(** X13. After the close listener has run for a socket, the socket has no
    registry entry and is not a member of the room it was registered in;
    no other registry entry has changed. A second close of the same socket
    therefore changes nothing and sends nothing. *)
Theorem close_is_final e st sock :
  let st' := (onClose e st sock).1 in
  users st' !! sock = None
  ∧ (∀ c, c ≠ sock → users st' !! c = users st !! c)
  ∧ (∀ user members, users st !! sock = Some user →
       rooms st' !! room user = Some members → sock ∉ members)
  ∧ (∀ e', onClose e' st' sock = (st', [])).
Proof.
  intros st'. subst st'.
  assert (users (onClose e st sock).1 !! sock = None) as Hgone.
  { unfold onClose. repeat case_match; simpl; try done;
      apply lookup_delete_eq. }
  split_and!; [done| | |].
  - intros c Hc. unfold onClose. repeat case_match; simpl; try done;
      by apply lookup_delete_ne.
  - intros user members Hu.
    destruct (rooms st !! room user) as [ms|] eqn:Hms.
    + destruct (decide (setDelete sock ms = [])) as [Hempty|Hrest].
      * rewrite (onClose_last _ _ _ _ _ Hu Hms Hempty). simpl.
        by rewrite lookup_delete_eq.
      * rewrite (onClose_remaining _ _ _ _ _ Hu Hms Hrest). simpl.
        rewrite lookup_insert_eq. intros [= <-].
        rewrite elem_of_setDelete. tauto.
    + rewrite (onClose_roomless _ _ _ _ Hu Hms). simpl. by rewrite Hms.
  - intros e'. by apply onClose_unregistered.
Qed.

(** ** Entering a room and leaving it again *)

Lemma setDelete_setAdd c s : c ∉ s → setDelete c (setAdd c s) = s.
Proof.
  intros Hc. unfold setAdd, setDelete. rewrite decide_False by done.
  rewrite filter_app, filter_cons, filter_nil.
  rewrite decide_False by (intros H; by apply H).
  rewrite app_nil_r. induction s as [|x s IH]; [done|].
  rewrite filter_cons. rewrite decide_True.
  - f_equal. apply IH. intros H. apply Hc. by right.
  - intros ->. apply Hc. by left.
Qed.

(** X14. Creating a room and closing undoes itself: when a connection
    without a registry entry creates a room and its socket then closes, the
    close sends nothing and both tables are again exactly what they were
    before the create-room. *)
Theorem create_then_close e e' st sock data roomId :
  isKind data "create-room" → users st !! sock = None →
  createUniqueRoomId (rooms st) (random e) = Some roomId →
  ∃ st1 out,
    onMessage e st sock data = Returned st1 out
    ∧ onClose e' st1 sock = (st, []).
Proof.
  intros Hk Hu Hid. rewrite (onMessage_create _ _ _ _ _ Hk Hu Hid).
  eexists _, _. split; [done|].
  pose proof (createUniqueRoomId_fresh _ _ _ Hid) as Hfresh.
  rewrite (onClose_last _ _ _ (mkUser sock roomId) [sock]); simpl.
  - rewrite !delete_insert_eq, !delete_id by done. apply f_equal2; [|done].
    apply Server_eta.
  - apply lookup_insert_eq.
  - apply lookup_insert_eq.
  - unfold setDelete. rewrite filter_cons, filter_nil.
    by rewrite decide_False by (intros H; by apply H).
Qed.

Lemma create_then_close_witness :
  isKind Scenario.createRoom "create-room"
  ∧ users Scenario.stA !! Scenario.B = None
  ∧ createUniqueRoomId (rooms Scenario.stA) [Scenario.u4821; 0%Q] = Some "1000"
  ∧ ∃ st1 out,
      onMessage (Scenario.env [Scenario.u4821; 0%Q]) Scenario.stA Scenario.B
        Scenario.createRoom = Returned st1 out
      ∧ onClose (Scenario.env []) st1 Scenario.B = (Scenario.stA, []).
Proof.
  split; [reflexivity|]. split; [reflexivity|]. split; [reflexivity|].
  exact (create_then_close (Scenario.env [Scenario.u4821; 0%Q]) (Scenario.env [])
           Scenario.stA Scenario.B Scenario.createRoom "1000"
           eq_refl eq_refl eq_refl).
Defined.

(** X15. Joining a room and closing undoes itself: when a connection
    without a registry entry that is not among the members of an open,
    non-empty, non-full room joins it and its socket then closes, both
    tables are again exactly what they were before the join-room, and the
    close sends the restored user count to the open sockets among the
    members that were there before. *)
Theorem join_then_close e e' st sock data r members :
  isKind data "join-room" → payloadField data "room" = Some (JStr r) → r ≠ "" →
  users st !! sock = None →
  rooms st !! r = Some members → sock ∉ members →
  0 < length members < MAX_USERS_PER_ROOM →
  ∃ st1 out,
    onMessage e st sock data = Returned st1 out
    ∧ onClose e' st1 sock
      = (st, map (λ client, (client, EUserCount (length members) 2))
                 (filter (λ client, isOpen e' client = true) members)).
Proof.
  intros Hk Hroom Hr Hu Hms Hnotin [Hpos Hlt].
  rewrite (onMessage_join_ok _ _ _ _ _ _ Hk Hroom Hr Hms Hlt).
  eexists _, _. split; [done|].
  rewrite (onClose_remaining _ _ _ (mkUser sock r) (setAdd sock members)); simpl.
  - rewrite (setDelete_setAdd _ _ Hnotin).
    rewrite delete_insert_eq, delete_id by done.
    rewrite insert_insert_eq, insert_id by done.
    by rewrite Server_eta.
  - apply lookup_insert_eq.
  - apply lookup_insert_eq.
  - rewrite (setDelete_setAdd _ _ Hnotin).
    destruct members; [simpl in Hpos; lia|done].
Qed.

Lemma join_then_close_witness :
  isKind (Scenario.joinRoom "4821") "join-room"
  ∧ users Scenario.stA !! Scenario.B = None
  ∧ rooms Scenario.stA !! "4821" = Some [Scenario.A]
  ∧ (Scenario.B ∉ [Scenario.A])
  ∧ ∃ st1 out,
      onMessage (Scenario.env []) Scenario.stA Scenario.B (Scenario.joinRoom "4821")
      = Returned st1 out
      ∧ onClose (Scenario.env []) st1 Scenario.B
        = (Scenario.stA,
           map (λ client, (client, EUserCount 1 2))
               (filter (λ client, isOpen (Scenario.env []) client = true)
                       [Scenario.A])).
Proof.
  assert (Scenario.B ∉ [Scenario.A]) as Hnotin
    by (intros [=]%list_elem_of_singleton).
  split; [reflexivity|]. split; [reflexivity|]. split; [reflexivity|].
  split; [exact Hnotin|].
  apply (join_then_close (Scenario.env []) (Scenario.env []) Scenario.stA
           Scenario.B (Scenario.joinRoom "4821") "4821" [Scenario.A]);
    try reflexivity; try done.
  unfold MAX_USERS_PER_ROOM. simpl. lia.
Defined.

Lemma close_is_final_witness :
  users (onClose (Scenario.env []) Scenario.stAB Scenario.B).1 !! Scenario.B = None
  ∧ onClose (Scenario.env []) (onClose (Scenario.env []) Scenario.stAB Scenario.B).1
      Scenario.B
    = ((onClose (Scenario.env []) Scenario.stAB Scenario.B).1, []).
Proof.
  pose proof (close_is_final (Scenario.env []) Scenario.stAB Scenario.B)
    as (Hgone & _ & _ & Hagain).
  split; [exact Hgone|exact (Hagain (Scenario.env []))].
Defined.

(** * Properties of the client, alone and against the server *)

Arguments Client.onmessage : simpl never.

Section ClientProperties.

Variable trim : string → string.
Variable numberToString : Q → string.

Abbreviation onmessage := (Client.onmessage numberToString).
Abbreviation receive := (Client.receive numberToString).
Abbreviation sendMessage := (Client.sendMessage trim).

Lemma receive_app c sock out1 out2 :
  receive c sock (out1 ++ out2)
  = match receive c sock out1 with
    | Client.Done c' _ => receive c' sock out2
    | Client.Raised c' frames => Client.Raised c' frames
    end.
Proof.
  revert c. induction out1 as [|[to env] out1 IH]; intros c; simpl.
  - by destruct (receive c sock out2).
  - case_decide; [|apply IH].
    destruct (onmessage c (Some (wire env))); [apply IH|done].
Qed.

Lemma receive_others c sock out :
  (∀ env, (sock, env) ∉ out) → receive c sock out = Client.Done c [].
Proof.
  induction out as [|[to env] out IH]; intros Hnot; simpl; [done|].
  rewrite decide_False.
  - apply IH. intros env' Hin. apply (Hnot env'). by right.
  - intros ->. apply (Hnot env). by left.
Qed.

Lemma receive_broadcast c c' sock env (cs : list WebSocket) :
  NoDup cs → sock ∈ cs →
  onmessage c (Some (wire env)) = Client.Done c' [] →
  receive c sock (map (λ client, (client, env)) cs) = Client.Done c' [].
Proof.
  intros Hnd Hin Hrun. revert Hin.
  induction Hnd as [|x cs Hx Hnd IH]; [by intros ?%elem_of_nil|].
  intros Hin. simpl. case_decide as Heq.
  - subst x. rewrite Hrun. apply receive_others.
    intros env'. rewrite elem_of_const_tagged. tauto.
  - apply IH. apply elem_of_cons in Hin as [->|?]; done.
Qed.

(** X16. The client's message handler returns normally on the frame of
    every envelope the server can build, and an error, delivered or seen
    envelope leaves every state variable as it was: the client shows no
    trace of a refused join, an acknowledgement or a read receipt. *)
Theorem client_accepts_server_envelopes c env :
  ∃ c', onmessage c (Some (wire env)) = Client.Done c' []
        ∧ match env with
          | EError _ | EDelivered _ | ESeen _ => c' = c
          | _ => True
          end.
Proof.
  destruct env as [m|r|r|k mx|[t|]|[i|] [t|]|[i|]|[i|]];
    eexists; (split; [reflexivity|]); try done.
Qed.

(** X17. A chat message end to end. A client whose socket is open and
    whose draft is not blank sends a frame that the server, for a sender
    registered in room R of a reachable state, relays: the sender's client
    shows the text as its own and clears the draft; the client of every other
    member of R with an open socket appends the same id and text as a
    message of the other side, once, and changes nothing else; the clients
    of all other sockets, and the sender's own on the acknowledgement, are
    left as they were. The only facts used of the builtins are that [trim]
    maps the empty string to itself and that the UUID is not empty. *)
Theorem message_end_to_end e st A user b c :
  trim "" = "" →
  reachable st → users st !! A = Some user →
  Client.socketRef b = Some Client.OPEN → Client.randomUUID b ≠ "" →
  trim (Client.draft c) ≠ "" →
  let id := Some (JStr (Client.randomUUID b)) in
  let text := Some (JStr (Client.draft c)) in
  ∃ c' frame members out,
    sendMessage b c = Client.Done c' [frame]
    ∧ Client.messages c' = Client.messages c ++ [Client.mkMessage id text true]
    ∧ Client.draft c' = ""
    ∧ rooms st !! room user = Some members
    ∧ onMessage e st A (Some frame) = Returned st out
    ∧ (∀ B cB, B ∈ members → B ≠ A → isOpen e B = true →
         receive cB B out
         = Client.Done
             (withMessages cB (Client.messages cB
                                 ++ [Client.mkMessage id text false])) [])
    ∧ (∀ B cB, B ≠ A → B ∉ members ∨ isOpen e B = false →
         receive cB B out = Client.Done cB [])
    ∧ (∀ cA, receive cA A out = Client.Done cA []).
Proof.
  intros Htrim Hreach Hu Hopen Huuid Hdraft id text.
  assert (Client.draft c ≠ "") as Htext by (intros Heq; by rewrite Heq in Hdraft).
  pose proof (Inv_reachable _ Hreach) as HI.
  destruct (inv_registered _ HI _ _ Hu) as (members & Hms & Hin).
  pose proof (inv_nodup _ HI _ _ Hms) as Hnd.
  set (frame := envelopeOf "message"
                  [("id", JStr (Client.randomUUID b));
                   ("text", JStr (Client.draft c))]).
  set (others := filter (λ client, client ≠ A ∧ isOpen e client = true) members).
  assert (∀ x, x ∈ others ↔ x ∈ members ∧ x ≠ A ∧ isOpen e x = true) as Hothers.
  { intros x. unfold others. rewrite list_elem_of_filter. tauto. }
  eexists _, frame, members, _. split_and!.
  - unfold Client.sendMessage, Client.send. rewrite Hopen.
    apply String.eqb_neq in Hdraft as ->. reflexivity.
  - reflexivity.
  - reflexivity.
  - exact Hms.
  - apply (onMessage_message e st A user members Hu Hms (Some frame)).
    + reflexivity.
    + simpl. by apply String.eqb_neq in Huuid as ->.
    + simpl. by apply String.eqb_neq in Htext as ->.
  - intros B cB HB Hne HopenB.
    change (payloadField (Some frame) "id") with id.
    change (payloadField (Some frame) "text") with text.
    fold others. rewrite receive_app.
    rewrite (receive_broadcast cB
               (withMessages cB (Client.messages cB
                                   ++ [Client.mkMessage id text false]))
               B (EMessage id text) others);
      [|by apply NoDup_filter|by apply Hothers|reflexivity].
    apply receive_others. intros env Henv%list_elem_of_singleton. congruence.
  - intros B cB Hne Hout.
    change (payloadField (Some frame) "id") with id.
    change (payloadField (Some frame) "text") with text.
    fold others. apply receive_others. intros env.
    rewrite elem_of_app, elem_of_const_tagged, list_elem_of_singleton, Hothers.
    intros [[(? & _ & ?) _]|[= ? _]]; [|done].
    destruct Hout; [done|congruence].
  - intros cA.
    change (payloadField (Some frame) "id") with id.
    change (payloadField (Some frame) "text") with text.
    fold others. rewrite receive_app, receive_others.
    + simpl. by rewrite decide_True.
    + intros env. rewrite elem_of_const_tagged, Hothers. tauto.
Qed.

(** ** Entering a room, seen from the client *)

Section Handshakes.

Hypothesis numberToString_nat :
  ∀ n : nat, numberToString (inject_Z (Z.of_nat n)) = pretty (Z.of_nat n).

(** X18. Creating a room end to end. When a client with an open socket asks
    for a room and the server finds an identifier for the so far
    unregistered connection, the connection is registered in the new room
    and the client, having handled the server's answers in order, shows the
    chat screen with that identifier as room code and the count "1/2", its
    other state variables being as before. Of the number builtin only the
    printing of non-negative integers in decimal is used. *)
Theorem create_room_handshake e st sock b c roomId :
  Client.socketRef b = Some Client.OPEN →
  users st !! sock = None → isOpen e sock = true →
  createUniqueRoomId (rooms st) (random e) = Some roomId →
  ∃ frame st' out,
    Client.createRoom b c = Client.Done c [frame]
    ∧ onMessage e st sock (Some frame) = Returned st' out
    ∧ users st' !! sock = Some (mkUser sock roomId)
    ∧ receive c sock out = Client.Done (inRoom c roomId "1/2") [].
Proof using numberToString_nat.
  intros Hopen Hu Hsock Hid.
  eexists _, (created st sock roomId), _. split_and!.
  - unfold Client.createRoom, Client.send. by rewrite Hopen.
  - by apply onMessage_create.
  - apply lookup_insert_eq.
  - rewrite filter_cons, filter_nil, decide_True by done.
    simpl. rewrite !decide_True by done.
    change (onmessage c (Some (wire (ERoomCreated roomId))))
      with (Client.Done (inRoom c roomId (Client.userCount c)) []).
    by rewrite !numberToString_nat.
Qed.

(** X19. Joining a room end to end. When a client with an open socket and a
    non-empty code in its input joins the room of that code, open with one
    other member, the server registers the connection in it and both
    clients, having handled what the server sent them, show the count
    "2/2"; the joiner's shows the chat screen with the code as room code,
    the other member's is otherwise unchanged. *)
Theorem join_room_handshake e st A B b cA cB r :
  Client.socketRef b = Some Client.OPEN →
  Client.inputRoom cB = r → r ≠ "" →
  rooms st !! r = Some [A] → A ≠ B →
  isOpen e A = true → isOpen e B = true →
  ∃ frame st' out,
    Client.joinRoom b cB = Client.Done cB [frame]
    ∧ onMessage e st B (Some frame) = Returned st' out
    ∧ users st' !! B = Some (mkUser B r)
    ∧ rooms st' !! r = Some [A; B]
    ∧ receive cB B out = Client.Done (inRoom cB r "2/2") []
    ∧ receive cA A out = Client.Done (withUserCount cA "2/2") [].
Proof using numberToString_nat.
  intros Hopen Hinput Hr Hms Hne HA HB.
  assert (setAdd B [A] = [A; B]) as Hadd.
  { unfold setAdd. rewrite decide_False; [done|].
    intros ->%list_elem_of_singleton. done. }
  eexists _, (joined st B r [A]), _. split_and!.
  - unfold Client.joinRoom, Client.send. rewrite Hopen, Hinput.
    by apply String.eqb_neq in Hr as ->.
  - apply (onMessage_join_ok e st B _ r [A]); try done.
    unfold MAX_USERS_PER_ROOM. simpl. lia.
  - apply lookup_insert_eq.
  - simpl. by rewrite lookup_insert_eq, Hadd.
  - rewrite Hadd. rewrite !filter_cons, filter_nil, !decide_True by done.
    simpl. rewrite decide_True, decide_False, decide_True by done.
    change (onmessage cB (Some (wire (EJoined r))))
      with (Client.Done (inRoom cB r (Client.userCount cB)) []).
    by rewrite !numberToString_nat.
  - rewrite Hadd. rewrite !filter_cons, filter_nil, !decide_True by done.
    simpl. rewrite decide_False, decide_True, decide_False by done.
    by rewrite !numberToString_nat.
Qed.

End Handshakes.

(** ** The message list of the client *)

Lemma extends_refl own c : extends own c c.
Proof. exists []. by rewrite app_nil_r. Qed.

Lemma extends_trans own c1 c2 c3 :
  extends own c1 c2 → extends own c2 c3 → extends own c1 c3.
Proof.
  intros (n1 & H1 & F1) (n2 & H2 & F2). exists (n1 ++ n2).
  split; [by rewrite H2, H1, app_assoc|by apply Forall_app].
Qed.

Lemma whenType_extends data k c body c' :
  (∀ c'', body = Normal c'' → extends false c c'') →
  Client.whenType data k c body = Normal c' → extends false c c'.
Proof.
  unfold Client.whenType, Client.bind. intros Hbody.
  destruct (getProp data "type") as [type|]; [|done].
  destruct (strictEq type k); [by apply Hbody|].
  intros [= <-]. apply extends_refl.
Qed.

Ltac same_messages :=
  let H := fresh in
  intros ? H; unfold Client.bind in H;
  repeat (case_match; simplify_eq);
  first [ by (exists []; split; [simpl; by rewrite app_nil_r|constructor])
        | by (eexists [_]; split; [reflexivity|repeat constructor]) ].

(** X20. The message list of the client only grows at its end. The message
    handler keeps every message shown and appends only messages flagged as
    the other side's; sending, by button or Enter key, keeps every message
    shown and appends only messages flagged as the user's own, also when
    the socket refuses the frame; creating or joining a room, focusing and
    blurring the input change no state variable at all, so that messages of
    an earlier room stay on display in the next one. *)
Theorem client_history_is_append_only b c frame key :
  extends false c (after (onmessage c frame))
  ∧ extends true c (after (sendMessage b c))
  ∧ extends true c (after (Client.handleKeyDown trim b c key))
  ∧ after (Client.createRoom b c) = c
  ∧ after (Client.joinRoom b c) = c
  ∧ after (Client.onFocus b c) = c
  ∧ after (Client.onBlur b c) = c.
Proof.
  assert (extends true c (after (sendMessage b c))) as Hsend.
  { unfold Client.sendMessage. destruct (String.eqb _ _); [apply extends_refl|].
    destruct (Client.send b _); simpl;
      (eexists [_]; split; [reflexivity|by repeat constructor]). }
  split_and!.
  - unfold Client.onmessage. destruct frame as [data|]; [|apply extends_refl].
    cbv zeta.
    destruct (Client.whenType (Some data) "room-created" c _) as [c1|] eqn:H1;
      cbn [Client.bind]; [|apply extends_refl].
    destruct (Client.whenType (Some data) "joined" c1 _) as [c2|] eqn:H2;
      cbn [Client.bind]; [|apply extends_refl].
    destruct (Client.whenType (Some data) "user-count" c2 _) as [c3|] eqn:H3;
      cbn [Client.bind]; [|apply extends_refl].
    destruct (Client.whenType (Some data) "message" c3 _) as [c4|] eqn:H4;
      cbn [Client.bind]; [|apply extends_refl].
    destruct (Client.whenType (Some data) "typing" c4 _) as [c5|] eqn:H5;
      cbn [Client.bind]; [|apply extends_refl].
    simpl.
    apply whenType_extends in H1; [|same_messages].
    apply whenType_extends in H2; [|same_messages].
    apply whenType_extends in H3; [|same_messages].
    apply whenType_extends in H4; [|same_messages].
    apply whenType_extends in H5; [|same_messages].
    eauto using extends_trans.
  - exact Hsend.
  - unfold Client.handleKeyDown. destruct (String.eqb key "Enter");
      [exact Hsend|apply extends_refl].
  - unfold Client.createRoom. by destruct (Client.send b _).
  - unfold Client.joinRoom. destruct (String.eqb _ _); [done|].
    by destruct (Client.send b _).
  - unfold Client.onFocus. by destruct (Client.send b _).
  - unfold Client.onBlur. by destruct (Client.send b _).
Qed.

End ClientProperties.

Lemma integerToString_nat (n : nat) :
  integerToString (inject_Z (Z.of_nat n)) = pretty (Z.of_nat n).
Proof. unfold integerToString. by rewrite Qfloor_Z. Qed.

Lemma message_end_to_end_witness :
  trimNothing "" = "" ∧ reachable Scenario.stAB
  ∧ users Scenario.stAB !! Scenario.A = Some (mkUser Scenario.A "4821")
  ∧ trimNothing (Client.draft (clientTyped "hi" "")) ≠ ""
  ∧ ∃ c' frame members out,
      Client.sendMessage trimNothing browserOpen (clientTyped "hi" "")
      = Client.Done c' [frame]
      ∧ Client.draft c' = ""
      ∧ rooms Scenario.stAB !! "4821" = Some members
      ∧ onMessage (Scenario.env []) Scenario.stAB Scenario.A (Some frame)
        = Returned Scenario.stAB out
      ∧ ∀ cA, Client.receive integerToString cA Scenario.A out = Client.Done cA [].
Proof.
  assert (reachable Scenario.stAB) as Hreach
    by (exists Scenario.trAB; apply Scenario_stAB).
  assert (trimNothing (Client.draft (clientTyped "hi" "")) ≠ "") as Hdraft
    by (by intros [=]).
  split; [reflexivity|]. split; [exact Hreach|]. split; [reflexivity|].
  split; [exact Hdraft|].
  destruct (message_end_to_end trimNothing integerToString (Scenario.env [])
              Scenario.stAB Scenario.A (mkUser Scenario.A "4821") browserOpen
              (clientTyped "hi" "") eq_refl Hreach eq_refl eq_refl)
    as (c' & frame & members & out & Hsend & _ & Hcleared & Hms & Hrun & _ & _ & Hack);
    [by intros [=]|exact Hdraft|].
  exists c', frame, members, out. split_and!; done.
Defined.

Lemma create_room_handshake_witness :
  Client.socketRef browserOpen = Some Client.OPEN
  ∧ users Scenario.stA !! Scenario.B = None
  ∧ createUniqueRoomId (rooms Scenario.stA)
      (random (Scenario.env [Scenario.u4821; 0%Q])) = Some "1000"
  ∧ ∃ frame st' out,
      Client.createRoom browserOpen (clientTyped "" "") = Client.Done (clientTyped "" "") [frame]
      ∧ onMessage (Scenario.env [Scenario.u4821; 0%Q]) Scenario.stA Scenario.B
          (Some frame) = Returned st' out
      ∧ users st' !! Scenario.B = Some (mkUser Scenario.B "1000")
      ∧ Client.receive integerToString (clientTyped "" "") Scenario.B out
        = Client.Done (inRoom (clientTyped "" "") "1000" "1/2") [].
Proof.
  split; [reflexivity|]. split; [reflexivity|]. split; [reflexivity|].
  exact (create_room_handshake integerToString integerToString_nat
           (Scenario.env [Scenario.u4821; 0%Q]) Scenario.stA Scenario.B
           browserOpen (clientTyped "" "") "1000"
           eq_refl eq_refl eq_refl eq_refl).
Defined.

Lemma join_room_handshake_witness :
  Client.inputRoom (clientTyped "" "4821") = "4821"
  ∧ rooms Scenario.stA !! "4821" = Some [Scenario.A]
  ∧ Scenario.A ≠ Scenario.B
  ∧ ∃ frame st' out,
      Client.joinRoom browserOpen (clientTyped "" "4821")
      = Client.Done (clientTyped "" "4821") [frame]
      ∧ onMessage (Scenario.env []) Scenario.stA Scenario.B (Some frame)
        = Returned st' out
      ∧ users st' !! Scenario.B = Some (mkUser Scenario.B "4821")
      ∧ rooms st' !! "4821" = Some [Scenario.A; Scenario.B]
      ∧ Client.receive integerToString (clientTyped "" "4821") Scenario.B out
        = Client.Done (inRoom (clientTyped "" "4821") "4821" "2/2") []
      ∧ Client.receive integerToString (clientTyped "hi" "") Scenario.A out
        = Client.Done (withUserCount (clientTyped "hi" "") "2/2") [].
Proof.
  assert (Scenario.A ≠ Scenario.B) as Hne by done.
  split; [reflexivity|]. split; [reflexivity|]. split; [exact Hne|].
  apply (join_room_handshake integerToString integerToString_nat
           (Scenario.env []) Scenario.stA Scenario.A Scenario.B
           browserOpen (clientTyped "hi" "") (clientTyped "" "4821") "4821");
    try reflexivity; done.
Defined.
